(** * genshin.py: the HTTP client ([genshin/client.py])

    A shallow embedding of [GenshinClient].  Every coroutine of the client
    becomes a computation in a state-and-exception monad over a [World]:
    the client object ([self]) together with the chronological trace of the
    effects that leave the process (HTTP requests, sleeps).  The remote
    service is a function from the number of requests already answered and
    the request to a response, so that the same request may be answered
    differently later on. *)

From Stdlib Require Import ZArith List Lia Ascii Sorted.
From stdpp Require Import base numbers strings list gmap pretty.

Set Default Proof Using "Type".
Set Warnings "-register-all".

(** ** Python values *)

(** Parsed JSON, as [r.json()] returns it. *)
Inductive json : Type :=
  | JNull
  | JBool (b : bool)
  | JInt (z : Z)
  | JStr (s : string)
  | JList (l : list json)
  | JObj (fields : list (string * json)).

(** The exceptions the client can see.  [Exception] is the builtin class the
    client raises itself; [ClientError] stands for the failures of aiohttp
    (network, timeout, body that is not JSON). *)
Inductive PyExc : Type :=
  | Exception (msg : string)
  | ClientError (msg : string)
  | KeyError (k : string)
  | ValueError (msg : string)
  | AttributeError
  | TypeError.

Inductive Result (A : Type) : Type :=
  | Ok (a : A)
  | Raise (e : PyExc).
Arguments Ok {A} a.
Arguments Raise {A} e.

(** A component of a cache-key tuple: the callers build tuples of strings and
    integers, e.g. [("abyss", uid, schedule_type)]. *)
Inductive KeyComp : Type :=
  | KStr (s : string)
  | KInt (z : Z).

#[global] Instance KeyComp_eq_dec : EqDecision KeyComp.
Proof. solve_decision. Defined.

#[global] Instance KeyComp_countable : Countable KeyComp.
Proof.
  refine (inj_countable'
    (fun c => match c with KStr s => inl s | KInt z => inr z end)
    (fun x => match x with inl s => KStr s | inr z => KInt z end) _).
  by intros [].
Defined.

Abbreviation CacheKey := (list KeyComp).

(** ** Sessions, requests and the remote *)

(** A cookie of the jar, with the two attributes the client reads. *)
Record Morsel : Type := { key : string; value : string }.

(** [aiohttp.ClientSession]: the jar is kept in iteration order. *)
Record ClientSession : Type := { cookie_jar : list Morsel; closed : bool }.

(** The keyword arguments the request helpers forward to aiohttp. *)
Record Kwargs : Type := {
  params : option (gmap string json);
  json_body : option json }.

Definition no_kwargs : Kwargs := {| params := None; json_body := None |}.

(** What goes on the wire; aiohttp attaches the cookies of the jar. *)
Record HttpRequest : Type := {
  req_method : string;
  req_url : string;
  req_headers : gmap string string;
  req_kwargs : Kwargs;
  req_cookies : list Morsel }.

(** The body of an answer follows the remote contract: either the envelope
    [{retcode, message, data}] of the API endpoints, or a static JSON file.
    [RespFail] is a transport failure. *)
Inductive Response : Type :=
  | RespFail (msg : string)
  | RespEnvelope (retcode : Z) (message : string) (data : json)
  | RespStatic (body : json).

Inductive Event : Type :=
  | EvHttp (r : HttpRequest)
  | EvSleep (seconds : Z).

Definition is_http (e : Event) : bool :=
  match e with EvHttp _ => true | EvSleep _ => false end.

(** ** The client object *)

Record GenshinClient : Type := {
  _session : option ClientSession;
  cache : option (gmap CacheKey json);
  authkey : option string;
  lang : string;
  debug : bool }.

(** The state a coroutine runs in: the client, the chronological trace of
    network calls and sleeps, what was printed, and the two process-wide
    stores behind the [permanent_cache] decorators. *)
Record World : Type := {
  self : GenshinClient;
  trace : list Event;
  stdout : list (string * string);
  banner_types_cache : gmap (option string) (gmap Z json);
  transaction_reasons_cache : gmap string (gmap string json) }.

Definition set_self (c : GenshinClient) (w : World) : World :=
  {| self := c; trace := trace w; stdout := stdout w;
     banner_types_cache := banner_types_cache w;
     transaction_reasons_cache := transaction_reasons_cache w |}.

Definition set_session (s : ClientSession) (w : World) : World :=
  set_self {| _session := Some s; cache := cache (self w);
              authkey := authkey (self w); lang := lang (self w);
              debug := debug (self w) |} w.

Definition set_cache (c : gmap CacheKey json) (w : World) : World :=
  set_self {| _session := _session (self w); cache := Some c;
              authkey := authkey (self w); lang := lang (self w);
              debug := debug (self w) |} w.

Definition emit (e : Event) (w : World) : World :=
  {| self := self w; trace := trace w ++ [e]; stdout := stdout w;
     banner_types_cache := banner_types_cache w;
     transaction_reasons_cache := transaction_reasons_cache w |}.

Definition print2 (a b : string) (w : World) : World :=
  {| self := self w; trace := trace w; stdout := stdout w ++ [(a, b)];
     banner_types_cache := banner_types_cache w;
     transaction_reasons_cache := transaction_reasons_cache w |}.

Definition set_banner_types_cache (c : gmap (option string) (gmap Z json))
    (w : World) : World :=
  {| self := self w; trace := trace w; stdout := stdout w;
     banner_types_cache := c;
     transaction_reasons_cache := transaction_reasons_cache w |}.

Definition set_transaction_reasons_cache (c : gmap string (gmap string json))
    (w : World) : World :=
  {| self := self w; trace := trace w; stdout := stdout w;
     banner_types_cache := banner_types_cache w;
     transaction_reasons_cache := c |}.

(** Number of HTTP requests issued so far. *)
Definition http_count (w : World) : nat := length (List.filter is_http (trace w)).

(** ** The monad of coroutines *)

Definition M (A : Type) : Type := World -> Result A * World.

Definition ret {A} (a : A) : M A := fun w => (Ok a, w).
Definition raise {A} (e : PyExc) : M A := fun w => (Raise e, w).
Definition bind {A B} (m : M A) (k : A -> M B) : M B :=
  fun w => match m w with
           | (Ok a, w') => k a w'
           | (Raise e, w') => (Raise e, w')
           end.
Definition gets {A} (f : GenshinClient -> A) : M A := fun w => (Ok (f (self w)), w).
Definition modify (f : World -> World) : M unit := fun w => (Ok tt, f w).
Definition lift {A} (r : Result A) : M A := fun w => (r, w).

Declare Scope py_scope.
Delimit Scope py_scope with py.
Notation "'await' x <- m ;; k" := (bind m (fun x => k))
  (at level 100, x name, m at next level, k at level 200,
   right associativity,
   format "'[v' 'await'  x  <-  m  ;; '/' k ']'") : py_scope.
Notation "m ;;; k" := (bind m (fun _ => k))
  (at level 100, k at level 200, right associativity) : py_scope.
Open Scope py_scope.

(** Python truthiness and [or]. *)
Definition str_or (a : option string) (b : string) : string :=
  match a with
  | Some s => if decide (s = "") then b else s
  | None => b
  end.

Definition opt_str_or (a b : option string) : option string :=
  match a with
  | Some s => if decide (s = "") then b else a
  | None => b
  end.

Definition tuple_truthy (t : option CacheKey) : bool :=
  match t with
  | Some (_ :: _) => true
  | _ => false
  end.

Definition mapping_truthy {K V} `{Countable K} (m : option (gmap K V)) : bool :=
  match m with
  | Some c => negb (Nat.eqb (size c) 0)
  | None => false
  end.

(** [d[k]] on a parsed JSON value. *)
Definition getitem (d : json) (k : string) : Result json :=
  match d with
  | JObj fields =>
      match list_find (fun kv => kv.1 = k) fields with
      | Some (_, (_, v)) => Ok v
      | None => Raise (KeyError k)
      end
  | _ => Raise TypeError
  end.

(** [for i in x] on a parsed JSON value: a list yields its elements, an
    object its keys, a string its characters; nothing else is iterable. *)
Definition iter_json (x : json) : Result (list json) :=
  match x with
  | JList l => Ok l
  | JObj fields => Ok (map (fun kv => JStr kv.1) fields)
  | JStr s => Ok (map (fun c => JStr (String c EmptyString)) (String.list_ascii_of_string s))
  | _ => Raise TypeError
  end.

(** A list comprehension whose element expression can raise. *)
Fixpoint comprehension {A B} (f : A -> Result B) (l : list A) : Result (list B) :=
  match l with
  | [] => Ok []
  | x :: rest =>
      match f x with
      | Raise e => Raise e
      | Ok y =>
          match comprehension f rest with
          | Raise e => Raise e
          | Ok ys => Ok (y :: ys)
          end
      end
  end.

(** ** What the client imports *)

(** [models.GenshinAccount], with the two attributes the client reads. *)
Record GenshinAccount : Type := { account_uid : Z; account_level : Z }.

(** The helpers of [utils], the model constructor, yarl's URL join, the
    builtin [int] on strings and the attributes [method] and [url] of
    aiohttp's response object are not part of [client.py]; the client is
    verified for every implementation of them.  The response object is
    aiohttp's own: the method and the URL it reports (the method as aiohttp
    normalizes it, the URL with the query built from [params]) are given by
    the request it answers and by the answer. *)
Class Externals : Type := {
  url_join : string -> string -> string;
  generate_ds_token : string -> string;
  get_short_lang_code : string -> string;
  recognize_server : Z -> Result string;
  py_int : string -> Result Z;
  new_GenshinAccount : list (string * json) -> Result GenshinAccount;
  response_method : HttpRequest -> Response -> string;
  response_url : HttpRequest -> Response -> string }.

(** The remote service: the answer may depend on how many requests were
    answered before. *)
Definition Remote : Type := nat -> HttpRequest -> Response.

Module Const.
Definition OS_DS_SALT : string := "6cqshh5dhw73bzxn20oexa9k516chk7s".
Definition CN_DS_SALT : string := "14bmu1mz0yuljprsfgpvjh3ju2ni468r".
Definition OS_ACT_ID : string := "e202102251931481".
Definition CN_ACT_ID : string := "e202009291139501".
Definition WEBSTATIC_URL : string := "https://webstatic-sea.mihoyo.com/".
Definition OS_RECORD_URL : string := "https://api-os-takumi.mihoyo.com/".
Definition CN_RECORD_URL : string := "https://api-takumi.mihoyo.com/".
Definition OS_REWARD_URL : string := "https://hk4e-api-os.mihoyo.com/event/sol/".
Definition CN_REWARD_URL : string :=
  "https://api-takumi.mihoyo.com/event/bbs_sign_reward/".
Definition GACHA_INFO_URL : string :=
  "https://hk4e-api-os.mihoyo.com/event/gacha_info/api/".
Definition YSULOG_URL : string := "https://hk4e-api-os.mihoyo.com/ysulog/api/".
Definition USER_AGENT : string :=
  "Mozilla/5.0 (Windows NT 10.0; Win64; x64) AppleWebKit/537.36 (KHTML, like Gecko) Chrome/58.0.3029.110 Safari/537.36".
Definition CDKEY_URL : string :=
  "https://hk4e-api-os.mihoyo.com/common/apicdkey/api/webExchangeCdkey".
End Const.

Definition get_lang : M string := gets lang.
Definition get_cache : M (option (gmap CacheKey json)) := gets cache.
Definition get_authkey : M (option string) := gets authkey.

Definition opt_json (a : option string) : json :=
  match a with Some s => JStr s | None => JNull end.

Section Client.
Context `{Ext : Externals}.
Variable remote : Remote.

(** *** Session and cookies *)

Definition new_session : ClientSession := {| cookie_jar := []; closed := false |}.

(** The [session] property: created when needed. *)
Definition session : M ClientSession := fun w =>
  match _session (self w) with
  | Some s => (Ok s, w)
  | None => (Ok new_session, set_session new_session w)
  end.

(** The [cookies] property.  The comparison [self.cookies is None] of the
    callers is on an optional value, so the getter returns one. *)
Definition cookies : M (option (gmap string string)) :=
  await s <- session ;;
  ret (Some (foldl (fun d cookie => <[key cookie := value cookie]> d) ∅ (cookie_jar s))).

Fixpoint first_uid_cookie (jar : list Morsel) : Result (option Z) :=
  match jar with
  | [] => Ok None
  | cookie :: rest =>
      if bool_decide (key cookie ∈ ["ltuid"; "account_id"])
      then match py_int (value cookie) with
           | Ok n => Ok (Some n)
           | Raise e => Raise e
           end
      else first_uid_cookie rest
  end.

(** The [hoyolab_uid] property. *)
Definition hoyolab_uid : M (option Z) :=
  await s <- session ;;
  lift (first_uid_cookie (cookie_jar s)).

(** *** Raw HTTP requests *)

(** One exchange with the remote through the session. *)
Definition send (r : HttpRequest) : M Response := fun w =>
  (Ok (remote (http_count w) r), emit (EvHttp r) w).

(** [if self.debug: print(r.method, r.url)], for the response [r] to the
    request [sent]: what is printed are the attributes of the response
    object, not the arguments of the caller. *)
Definition debug_print (sent : HttpRequest) (r : Response) : M unit :=
  await dbg <- gets debug ;;
  if dbg then modify (print2 (response_method sent r) (response_url sent r)) else ret tt.

Definition request (url method : string) (headers : option (gmap string string))
    (kwargs : Kwargs) : M json :=
  let headers := <["user-agent" := Const.USER_AGENT]> (default ∅ headers) in
  await s <- session ;;
  let sent := {| req_method := method; req_url := url; req_headers := headers;
                 req_kwargs := kwargs; req_cookies := cookie_jar s |} in
  await r <- send sent ;;
  match r with
  | RespFail msg => raise (ClientError msg)
  | RespEnvelope retcode message data =>
      debug_print sent r ;;;
      if decide (retcode = 0%Z) then ret data
      else raise (Exception (pretty retcode +:+ " - " +:+ message))
  | RespStatic _ =>
      debug_print sent r ;;;
      raise (KeyError "retcode")
  end.

Definition request_webstatic (url : string) (headers : option (gmap string string))
    (kwargs : Kwargs) : M json :=
  let headers := <["user-agent" := Const.USER_AGENT]> (default ∅ headers) in
  let url := url_join Const.WEBSTATIC_URL url in
  await s <- session ;;
  await r <- send {| req_method := "GET"; req_url := url; req_headers := headers;
                     req_kwargs := kwargs; req_cookies := cookie_jar s |} ;;
  match r with
  | RespFail msg => raise (ClientError msg)
  | RespEnvelope retcode message data =>
      ret (JObj [("retcode", JInt retcode); ("message", JStr message); ("data", data)])
  | RespStatic body => ret body
  end.

(** The key [request_game_record] works with after its first statement. *)
Definition effective_key (cache : option CacheKey) (lang : option string)
    (self_lang : string) : option CacheKey :=
  if tuple_truthy cache
  then (fun t => t ++ [KStr (str_or lang self_lang)]) <$> cache
  else cache.

(** [cache and self.cache and cache in self.cache], with [self.cache[cache]]. *)
Definition cached_value (self_cache : option (gmap CacheKey json))
    (cache : option CacheKey) : option json :=
  if tuple_truthy cache && mapping_truthy self_cache
  then self_cache ≫= (fun c => cache ≫= (fun k => c !! k))
  else None.

(** [if cache and self.cache is not None: self.cache[cache] = data] *)
Definition store (cache : option CacheKey) (data : json) : M unit :=
  await self_cache <- get_cache ;;
  if tuple_truthy cache
  then match cache, self_cache with
       | Some k, Some c => modify (set_cache (<[k := data]> c))
       | _, _ => ret tt
       end
  else ret tt.

Definition record_url (chinese : bool) (endpoint : string) : string :=
  url_join (if chinese then Const.CN_RECORD_URL else Const.OS_RECORD_URL) endpoint.

Definition record_headers (chinese : bool) (language : string) : gmap string string :=
  <["x-rpc-app_version" := if chinese then "2.7.0" else "1.5.0"]>
  (<["x-rpc-client_type" := if chinese then "5" else "4"]>
  (<["x-rpc-language" := language]>
  (<["ds" := generate_ds_token
               (if chinese then Const.CN_DS_SALT else Const.OS_DS_SALT)]> ∅))).

Definition request_game_record (endpoint method : string) (chinese : bool)
    (lang : option string) (cache : option CacheKey) (kwargs : Kwargs) : M json :=
  await self_lang <- get_lang ;;
  let cache := effective_key cache lang self_lang in
  await self_cache <- get_cache ;;
  match cached_value self_cache cache with
  | Some stored => ret stored
  | None =>
      await ck <- cookies ;;
      match ck with
      | None => raise (Exception "No cookies provided")
      | Some _ =>
          let url := record_url chinese endpoint in
          let headers := record_headers chinese (str_or lang self_lang) in
          await data <- request url method (Some headers) kwargs ;;
          store cache data ;;;
          ret data
      end
  end.

Definition request_daily_reward (endpoint method : string) (chinese : bool)
    (lang : option string) (kwargs : Kwargs) : M json :=
  let params0 := default ∅ (params kwargs) in
  await ck <- cookies ;;
  match ck with
  | None => raise (Exception "No cookies provided")
  | Some _ =>
      let base_url := if chinese then Const.CN_REWARD_URL else Const.OS_REWARD_URL in
      let url := url_join base_url endpoint in
      await self_lang <- get_lang ;;
      let params1 := <["lang" := JStr (str_or lang self_lang)]> params0 in
      let params2 :=
        <["act_id" := JStr (if chinese then Const.CN_ACT_ID else Const.OS_ACT_ID)]>
          params1 in
      request url method None
        {| params := Some params2; json_body := json_body kwargs |}
  end.

Definition request_gacha_info (endpoint method : string) (lang authkey : option string)
    (kwargs : Kwargs) : M json :=
  let params0 := default ∅ (params kwargs) in
  let url := url_join Const.GACHA_INFO_URL endpoint in
  await self_authkey <- get_authkey ;;
  await self_lang <- get_lang ;;
  let params1 := <["authkey_ver" := JInt 1]> params0 in
  let params2 := <["authkey" := opt_json (opt_str_or authkey self_authkey)]> params1 in
  let params3 :=
    <["lang" := JStr (get_short_lang_code (str_or lang self_lang))]> params2 in
  match authkey, self_authkey with
  | None, None => raise (Exception "No authkey provided")
  | _, _ =>
      request url method None
        {| params := Some params3; json_body := json_body kwargs |}
  end.

Definition request_transaction (endpoint method : string) (lang authkey : option string)
    (kwargs : Kwargs) : M json :=
  let params0 := default ∅ (params kwargs) in
  let url := url_join Const.YSULOG_URL endpoint in
  await self_authkey <- get_authkey ;;
  await self_lang <- get_lang ;;
  let params1 := <["authkey_ver" := JInt 1]> params0 in
  let params2 := <["sign_type" := JInt 2]> params1 in
  let params3 := <["authkey" := opt_json (opt_str_or authkey self_authkey)]> params2 in
  let params4 :=
    <["lang" := JStr (get_short_lang_code (str_or lang self_lang))]> params3 in
  match authkey, self_authkey with
  | None, None => raise (Exception "No authkey provided")
  | _, _ =>
      request url method None
        {| params := Some params4; json_body := json_body kwargs |}
  end.

(** *** Hoyolab *)

Definition accounts (lang : option string) : M (list GenshinAccount) :=
  await data <- request_game_record "binding/api/getUserGameRolesByCookie" "GET"
                  false lang None no_kwargs ;;
  await l <- lift (getitem data "list") ;;
  await items <- lift (iter_json l) ;;
  lift (comprehension
          (fun i => match i with
                    | JObj fields => new_GenshinAccount fields
                    | _ => Raise TypeError
                    end) items).

(** [dict(uid=uid, region=server, cdkey=code, game_biz="hk4e_global", lang=lang)] *)
Definition cdkey_params (uid : Z) (server code lang : string) : gmap string json :=
  <["uid" := JInt uid]> (<["region" := JStr server]>
  (<["cdkey" := JStr code]> (<["game_biz" := JStr "hk4e_global"]>
  (<["lang" := JStr lang]> ∅)))).

(** The branch of [redeem_code] taken when a uid is given. *)
Definition redeem_code_for (code : string) (uid : Z) (lang : option string) : M unit :=
  await server <- lift (recognize_server uid) ;;
  await self_lang <- get_lang ;;
  let lang := get_short_lang_code (str_or lang self_lang) in
  await _r <- request Const.CDKEY_URL "GET" None
    {| params := Some (cdkey_params uid server code lang); json_body := None |} ;;
  ret tt.

(** The loop over [enumerate(accounts)], from index [i] on. *)
Fixpoint redeem_each (code : string) (lang : option string) (i : nat)
    (accounts : list GenshinAccount) : M unit :=
  match accounts with
  | [] => ret tt
  | account :: rest =>
      (if Nat.eqb i 0 then ret tt else modify (emit (EvSleep 5))) ;;;
      redeem_code_for code (account_uid account) lang ;;;
      redeem_each code lang (S i) rest
  end.

Definition level_ok (a : GenshinAccount) : bool := (10 <=? account_level a)%Z.

Definition redeem_code (code : string) (uid : option Z) (lang : option string) : M unit :=
  match uid with
  | Some uid => redeem_code_for code uid lang
  | None =>
      await all <- accounts None ;;
      let accounts := List.filter level_ok all in
      redeem_each code lang 0 accounts
  end.
End Client.

(** ** Paginator factories *)

(** The paginator classes live in [genshin/paginator.py]; a paginator object
    is represented by the arguments of the constructor call that made it. *)
Inductive WishPaginator : Type :=
  | MergedWishHistory (client : GenshinClient) (lang authkey : option string)
      (limit : option Z) (end_id : Z)
  | WishHistory (client : GenshinClient) (banner_type : Z) (lang authkey : option string)
      (limit : option Z) (end_id : Z).

Inductive TransactionPaginator : Type :=
  | MergedTransactions (client : GenshinClient) (lang authkey : option string)
      (limit : option Z) (end_id : Z)
  | Transactions (client : GenshinClient) (kind : string) (lang authkey : option string)
      (limit : option Z) (end_id : Z).

(** The keyword-only arguments of [wish_history] and [transaction_log]; [None]
    is an argument the caller left out. *)
Record HistoryOptions : Type := {
  opt_limit : option Z;
  opt_lang : option string;
  opt_authkey : option string;
  opt_end_id : option Z }.

Definition no_options : HistoryOptions :=
  {| opt_limit := None; opt_lang := None; opt_authkey := None; opt_end_id := None |}.

Definition wish_history (client : GenshinClient) (banner_type : option Z)
    (o : HistoryOptions) : WishPaginator :=
  let limit := opt_limit o in
  let lang := opt_lang o in
  let authkey := opt_authkey o in
  let end_id := default 0%Z (opt_end_id o) in
  match banner_type with
  | None => MergedWishHistory client lang authkey limit end_id
  | Some banner_type => WishHistory client banner_type lang authkey limit end_id
  end.

Definition transaction_log (client : GenshinClient) (kind : option string)
    (o : HistoryOptions) : TransactionPaginator :=
  let limit := opt_limit o in
  let lang := opt_lang o in
  let authkey := opt_authkey o in
  let end_id := default 0%Z (opt_end_id o) in
  match kind with
  | None => MergedTransactions client lang authkey limit end_id
  | Some kind => Transactions client kind lang authkey limit end_id
  end.

Definition wish_is_merged (p : WishPaginator) : bool :=
  match p with MergedWishHistory _ _ _ _ _ => true | WishHistory _ _ _ _ _ _ => false end.
Definition wish_category (p : WishPaginator) : option Z :=
  match p with MergedWishHistory _ _ _ _ _ => None | WishHistory _ b _ _ _ _ => Some b end.
Definition wish_limit (p : WishPaginator) : option Z :=
  match p with MergedWishHistory _ _ _ l _ => l | WishHistory _ _ _ _ l _ => l end.
Definition wish_end_id (p : WishPaginator) : Z :=
  match p with MergedWishHistory _ _ _ _ e => e | WishHistory _ _ _ _ _ e => e end.

Definition transactions_is_merged (p : TransactionPaginator) : bool :=
  match p with MergedTransactions _ _ _ _ _ => true | Transactions _ _ _ _ _ _ => false end.
Definition transactions_category (p : TransactionPaginator) : option string :=
  match p with MergedTransactions _ _ _ _ _ => None | Transactions _ k _ _ _ _ => Some k end.
Definition transactions_limit (p : TransactionPaginator) : option Z :=
  match p with MergedTransactions _ _ _ l _ => l | Transactions _ _ _ _ l _ => l end.
Definition transactions_end_id (p : TransactionPaginator) : Z :=
  match p with MergedTransactions _ _ _ _ e => e | Transactions _ _ _ _ _ e => e end.

(** ** Permanent caches *)

(** Modelled from the spec: the decorator [utils.permanent_cache] is not in
    [client.py].  Section 4.2 gives its operation [getOrCompute(key, compute)]:
    if the key is present the stored value is returned and [compute] is not
    invoked; otherwise [compute] runs, its result is stored only on success,
    and it is returned.  [get] and [set] select the store of the decorated
    function. *)
Definition getOrCompute {K V} `{Countable K}
    (get : World -> gmap K V) (set : gmap K V -> World -> World)
    (k : K) (compute : M V) : M V :=
  fun w =>
    match get w !! k with
    | Some v => (Ok v, w)
    | None =>
        match compute w with
        | (Ok v, w') => (Ok v, set (<[k := v]> (get w')) w')
        | (Raise e, w') => (Raise e, w')
        end
    end.

(** [k.split("_")[-1]] *)
Fixpoint last_segment (acc s : string) : string :=
  match s with
  | EmptyString => acc
  | String c rest =>
      if Ascii.eqb c "_"%char then last_segment "" rest
      else last_segment (acc +:+ String c "") rest
  end.

Section Catalogs.
Context `{Ext : Externals}.
Variable remote : Remote.

(** [int(x)] on a parsed JSON value. *)
Definition int_json (x : json) : Result Z :=
  match x with
  | JStr s => py_int s
  | JInt z => Ok z
  | JBool b => Ok (if b then 1%Z else 0%Z)
  | _ => Raise TypeError
  end.

Definition banner_entry (i : json) : Result (Z * json) :=
  match getitem i "key" with
  | Raise e => Raise e
  | Ok k =>
      match int_json k with
      | Raise e => Raise e
      | Ok n =>
          match getitem i "name" with
          | Raise e => Raise e
          | Ok name => Ok (n, name)
          end
      end
  end.

(** The body of [get_banner_types], under the decorator. *)
Definition fetch_banner_types (lang authkey : option string) : M (gmap Z json) :=
  await data <- request_gacha_info remote "getConfigList" "GET" lang authkey no_kwargs ;;
  await l <- lift (getitem data "gacha_type_list") ;;
  await items <- lift (iter_json l) ;;
  await entries <- lift (comprehension banner_entry items) ;;
  ret (foldl (fun d kv => <[kv.1 := kv.2]> d) ∅ entries).

(** [@utils.permanent_cache("lang")]: the key is the [lang] argument. *)
Definition get_banner_types (lang authkey : option string) : M (gmap Z json) :=
  getOrCompute banner_types_cache set_banner_types_cache lang
    (fetch_banner_types lang authkey).

Definition reasons_base : string :=
  "https://mi18n-os.mihoyo.com/webstatic/admin/mi18n/hk4e_global/".

(** The body of [_get_transaction_reasons], under the decorator. *)
Definition fetch_transaction_reasons (lang : string) : M (gmap string json) :=
  await data <- request_webstatic remote
    (reasons_base +:+ "m02251421001311/m02251421001311-" +:+ lang +:+ ".json")
    None no_kwargs ;;
  match data with
  | JObj fields =>
      ret (foldl (fun d kv =>
                    if String.prefix "selfinquiry_general_reason_" kv.1
                    then <[last_segment "" kv.1 := kv.2]> d else d) ∅ fields)
  | _ => raise AttributeError
  end.

Definition _get_transaction_reasons (lang : string) : M (gmap string json) :=
  getOrCompute transaction_reasons_cache set_transaction_reasons_cache lang
    (fetch_transaction_reasons lang).
End Catalogs.

(** ** The merge paginator *)

Module Merge.

(** Modelled from the spec: the item classes of [genshin/models.py] are
    missing.  Section 3 gives a feed item the remote's identifier, a
    timestamp in seconds and the tag of its category. *)
Record FeedItem : Type := { item_id : Z; timestamp : Z; category : nat }.

(** Modelled from the spec: [MergedWishHistory] and [MergedTransactions]
    live in [genshin/paginator.py], which is missing.  Section 4.5
    describes them as a streaming k-way merge over one cursor paginator per
    category.  A cursor paginator is represented by the pages its
    successive [nextPage()] calls return; it is exhausted when none is
    left. *)
Record CursorPaginator : Type := { pending : list (list FeedItem) }.

(** Modelled from the spec: the [exhausted] flag of section 4.4, for a
    paginator given by its remaining pages. *)
Definition exhausted (p : CursorPaginator) : bool :=
  match pending p with [] => true | _ => false end.

(** Modelled from the spec: [nextPage()] of section 4.4 returns the next
    page, an empty one once the paginator is exhausted. *)
Definition nextPage (p : CursorPaginator) : list FeedItem * CursorPaginator :=
  match pending p with
  | [] => ([], p)
  | page :: rest => (page, {| pending := rest |})
  end.

(** Modelled from the spec: section 4.5 keeps, for each category, its
    current page buffer and its paginator. *)
Record Slot : Type := { buffer : list FeedItem; source : CursorPaginator }.

(** Modelled from the spec: step 1 of section 4.5, a buffer is refilled by
    [nextPage()] only when it is empty and the paginator is not exhausted;
    an empty page leaves the buffer empty, so the refill is repeated. *)
Fixpoint refill_from (pages : list (list FeedItem)) : Slot :=
  match pages with
  | [] => {| buffer := []; source := {| pending := [] |} |}
  | [] :: rest => refill_from rest
  | (x :: page) :: rest => {| buffer := x :: page; source := {| pending := rest |} |}
  end.

(** Modelled from the spec: step 1 of section 4.5, the refill of one
    category. *)
Definition refill (s : Slot) : Slot :=
  match buffer s with
  | [] => if exhausted (source s) then s else refill_from (pending (source s))
  | _ :: _ => s
  end.

(** Modelled from the spec: step 2, the head with the largest timestamp
    wins, ties are broken by the largest id. *)
Definition newer (x y : FeedItem) : bool :=
  (timestamp y <? timestamp x)%Z
  || ((timestamp x =? timestamp y)%Z && (item_id y <? item_id x)%Z).

(** Modelled from the spec: step 2, selection among the categories with a
    non-empty buffer; on a full tie the category that comes first in the
    order fixed at construction wins.  The result is the position of the
    chosen category and the head of its buffer. *)
Fixpoint select (slots : list Slot) : option (nat * FeedItem) :=
  match slots with
  | [] => None
  | s :: rest =>
      match buffer s, select rest with
      | [], None => None
      | [], Some (i, y) => Some (S i, y)
      | x :: _, None => Some (0, x)
      | x :: _, Some (i, y) => if newer y x then Some (S i, y) else Some (0, x)
      end
  end.

(** Modelled from the spec: step 3, pop the chosen head and refill its
    buffer at once when it became empty. *)
Definition pop (s : Slot) : Slot :=
  refill {| buffer := tail (buffer s); source := source s |}.

(** Modelled from the spec: step 3 of section 4.5, applied to the category
    at position [i]. *)
Fixpoint pop_at (i : nat) (slots : list Slot) : list Slot :=
  match slots, i with
  | [], _ => []
  | s :: rest, 0 => pop s :: rest
  | s :: rest, S j => s :: pop_at j rest
  end.

(** Modelled from the spec: the state of the merge paginator of section
    4.5, its categories in priority order, the items it may still produce
    and the cutoff. *)
Record MergePaginator : Type := {
  slots : list Slot;
  limit : option nat;
  stopId : Z }.

(** Modelled from the spec: construction takes the categories in their
    priority order, an optional limit and the [stopId] cutoff. *)
Definition create (categories : list CursorPaginator) (limit : option nat) (stopId : Z)
    : MergePaginator :=
  {| slots := map (fun p => refill {| buffer := []; source := p |}) categories;
     limit := limit; stopId := stopId |}.

Definition limit_reached (l : option nat) : bool :=
  match l with Some 0 => true | _ => false end.

(** Modelled from the spec: steps 2 to 4, the next merged item, or the end
    of the sequence. *)
Definition next (m : MergePaginator) : option (FeedItem * MergePaginator) :=
  if limit_reached (limit m) then None
  else match select (slots m) with
       | None => None
       | Some (i, x) =>
           if (item_id x <=? stopId m)%Z then None
           else Some (x, {| slots := pop_at i (slots m);
                            limit := Nat.pred <$> limit m;
                            stopId := stopId m |})
       end.

(** Modelled from the spec: the lazy sequence of section 4.5, pulled at
    most [fuel] times. *)
Fixpoint collect_fuel (fuel : nat) (m : MergePaginator) : list FeedItem :=
  match fuel with
  | 0 => []
  | S fuel =>
      match next m with
      | None => []
      | Some (x, m') => x :: collect_fuel fuel m'
      end
  end.

(** The items a category can still produce. *)
Definition feed (s : Slot) : list FeedItem := buffer s ++ concat (pending (source s)).

Definition remaining (m : MergePaginator) : nat :=
  length (concat (map feed (slots m))).

(** Modelled from the spec: the whole merged sequence of section 4.5;
    [remaining] pulls always suffice. *)
Definition collect (m : MergePaginator) : list FeedItem :=
  collect_fuel (remaining m) m.

(** *** The merge on whole feeds *)

(** The same selection on feeds that are not cut into pages; the paginated
    merge is compared with it. *)
Fixpoint flat_select (feeds : list (list FeedItem)) : option (nat * FeedItem) :=
  match feeds with
  | [] => None
  | f :: rest =>
      match f, flat_select rest with
      | [], None => None
      | [], Some (i, y) => Some (S i, y)
      | x :: _, None => Some (0, x)
      | x :: _, Some (i, y) => if newer y x then Some (S i, y) else Some (0, x)
      end
  end.

Fixpoint flat_pop (i : nat) (feeds : list (list FeedItem)) : list (list FeedItem) :=
  match feeds, i with
  | [], _ => []
  | f :: rest, 0 => tail f :: rest
  | f :: rest, S j => f :: flat_pop j rest
  end.

Fixpoint flat_merge (fuel : nat) (feeds : list (list FeedItem)) (limit : option nat)
    (stopId : Z) : list FeedItem :=
  match fuel with
  | 0 => []
  | S fuel =>
      if limit_reached limit then []
      else match flat_select feeds with
           | None => []
           | Some (i, x) =>
               if (item_id x <=? stopId)%Z then []
               else x :: flat_merge fuel (flat_pop i feeds) (Nat.pred <$> limit) stopId
           end
  end.

(** The lookahead of one: an empty buffer belongs to an exhausted
    paginator. *)
Definition ready (s : Slot) : Prop := buffer s = [] → pending (source s) = [].

Definition non_increasing (l : list FeedItem) : Prop :=
  StronglySorted (fun x y => (timestamp y <= timestamp x)%Z) l.

Definition of_times (cat : nat) (ts : list Z) : list FeedItem :=
  map (fun t => {| item_id := t; timestamp := t; category := cat |}) ts.

End Merge.

(** ** A concrete environment *)

(** One implementation of the imported helpers and a scripted remote, to run
    the client on concrete inputs. *)
Module Demo.

Fixpoint digits_value (acc : Z) (s : string) : option Z :=
  match s with
  | EmptyString => Some acc
  | String c rest =>
      let n := Z.of_nat (nat_of_ascii c) in
      if ((48 <=? n) && (n <=? 57))%Z
      then digits_value (acc * 10 + (n - 48))%Z rest
      else None
  end.

Definition parse_int (s : string) : Result Z :=
  match s with
  | EmptyString => Raise (ValueError s)
  | _ => match digits_value 0 s with
         | Some n => Ok n
         | None => Raise (ValueError s)
         end
  end.

Definition account_of_fields (fields : list (string * json)) : Result GenshinAccount :=
  match getitem (JObj fields) "game_uid", getitem (JObj fields) "level" with
  | Ok (JStr u), Ok (JInt l) =>
      match parse_int u with
      | Ok n => Ok {| account_uid := n; account_level := l |}
      | Raise e => Raise e
      end
  | _, _ => Raise TypeError
  end.

Definition server_of (uid : Z) : Result string :=
  if (0 <? uid)%Z then Ok "os_usa"
  else Raise (Exception "UID isn't associated with any server").

Definition externals : Externals := {|
  url_join base endpoint := base +:+ endpoint;
  generate_ds_token salt := "ds-token";
  get_short_lang_code l := l;
  recognize_server := server_of;
  py_int := parse_int;
  new_GenshinAccount := account_of_fields;
  response_method sent _ := req_method sent;
  response_url sent _ := req_url sent |}.

(** The remote answers the [n]-th request with the [n]-th scripted
    response, whatever the request. *)
Definition scripted (answers : list Response) (fallback : Response) : Remote :=
  fun n _ => default fallback (answers !! n).

Definition client0 : GenshinClient :=
  {| _session := None; cache := None; authkey := None; lang := "en-us"; debug := false |}.

Definition world_of (c : GenshinClient) : World :=
  {| self := c; trace := []; stdout := [];
     banner_types_cache := ∅; transaction_reasons_cache := ∅ |}.

Definition account_json (uid : string) (level : Z) : json :=
  JObj [("game_uid", JStr uid); ("level", JInt level)].

Definition accounts_answer : Response :=
  RespEnvelope 0 "OK"
    (JObj [("list", JList [account_json "700000001" 55; account_json "700000002" 3;
                           account_json "800000003" 10])]).

Definition ok_answer : Response := RespEnvelope 0 "OK" JNull.
Definition refused_answer : Response := RespEnvelope (-2003) "Invalid redemption code" JNull.

Definition banner_answer (name : string) : Response :=
  RespEnvelope 0 "OK"
    (JObj [("gacha_type_list", JList [JObj [("key", JStr "301"); ("name", JStr name)]])]).

Definition reasons_answer (text : string) : Response :=
  RespStatic (JObj [("selfinquiry_general_reason_12", JStr text); ("other_key", JStr "x")]).

(** A client whose session cache holds an entry under [("en-us",)] and one
    under [("user", 1, "en-us")]. *)
Definition cached_client : GenshinClient :=
  {| _session := None;
     cache := Some (<[ [KStr "en-us"] := JInt 7 ]>
                     {[ [KStr "user"; KInt 1; KStr "en-us"] := JInt 8 ]});
     authkey := None; lang := "en-us"; debug := false |}.

(** A client with an empty session cache. *)
Definition caching_client : GenshinClient :=
  {| _session := None; cache := Some ∅;
     authkey := None; lang := "en-us"; debug := false |}.

End Demo.

(** ** Notions used in the statements *)

(** The session a coroutine finds, or the fresh one the [session] property
    creates. *)
Definition self_lang (w : World) : string := lang (self w).

Definition session_of (w : World) : ClientSession :=
  default new_session (_session (self w)).

Definition with_session (w : World) : World :=
  match _session (self w) with
  | Some _ => w
  | None => set_session new_session w
  end.

(** The request [request] puts on the wire in world [w]. *)
Definition wire (url method : string) (headers : option (gmap string string))
    (kwargs : Kwargs) (w : World) : HttpRequest :=
  {| req_method := method; req_url := url;
     req_headers := <["user-agent" := Const.USER_AGENT]> (default ∅ headers);
     req_kwargs := kwargs; req_cookies := cookie_jar (session_of w) |}.

(** The world after the debug line for the answer [r] to [sent]. *)
Definition printed `{Ext : Externals} (sent : HttpRequest) (r : Response) (w : World)
    : World :=
  if debug (self w) then print2 (response_method sent r) (response_url sent r) w else w.

(** The submission of a code for one account, as [redeem_code] sends it from
    a client with the cookie jar [jar] and the language [sl]. *)
Definition submission `{Ext : Externals} (code : string) (language : option string)
    (jar : list Morsel) (sl : string) (uid : Z) : HttpRequest :=
  {| req_method := "GET"; req_url := Const.CDKEY_URL;
     req_headers := <["user-agent" := Const.USER_AGENT]> ∅;
     req_kwargs :=
       {| params := Some (cdkey_params uid
                            (match recognize_server uid with
                             | Ok server => server
                             | Raise _ => ""
                             end)
                            code (get_short_lang_code (str_or language sl)));
          json_body := None |};
     req_cookies := jar |}.



Definition jar_of (w : World) : list Morsel := cookie_jar (session_of w).

(** The text of the exception raised for a non-zero retcode. *)
Definition remote_error_text (retcode : Z) (message : string) : string :=
  pretty retcode +:+ " - " +:+ message.

Definition sign_chars : list ascii :=
  ["-"; "0"; "1"; "2"; "3"; "4"; "5"; "6"; "7"; "8"; "9"]%char.

Definition chars (s : string) : list ascii := String.list_ascii_of_string s.

(** * The rest of the client *)

(** ** More of Python *)

(** Truthiness of a parsed JSON value, as [if x] and [not x] see it. *)
Definition json_truthy (x : json) : bool :=
  match x with
  | JNull => false
  | JBool b => b
  | JInt z => negb (z =? 0)%Z
  | JStr s => negb (bool_decide (s = ""))
  | JList l => negb (bool_decide (l = []))
  | JObj fields => match fields with [] => false | _ => true end
  end.

(** [d[k] = v] on a dict kept as the list of its items: the value of a key
    that is there is replaced in place, a new key goes to the end. *)
Fixpoint dict_set (k : string) (v : json) (d : list (string * json))
    : list (string * json) :=
  match d with
  | [] => [(k, v)]
  | (k', v') :: rest =>
      if decide (k' = k) then (k, v) :: rest else (k', v') :: dict_set k v rest
  end.

(** [d.update(o)] for a dict [o]: item by item, in the order of [o]. *)
Definition dict_merge (d o : list (string * json)) : list (string * json) :=
  foldl (fun acc kv => dict_set kv.1 kv.2 acc) d o.

(** The classes of [genshin/models.py] the client builds from a response. *)
Inductive ModelClass : Type :=
  | SearchUser
  | RecordCard
  | UserStats
  | PartialUserStats
  | SpiralAbyss
  | DailyReward
  | BannerDetails.

(** The constructors of the model classes are not part of [client.py]: a
    call of a class with [fields] as keyword arguments is a parameter,
    and may raise. *)
Class Models : Type := {
  Model : Type;
  new_model : ModelClass -> list (string * json) -> Result Model }.

(** Two operations of Python the client relies on, taken with the part of
    their behaviour the client can count on.  [dict_update d o] is
    [d.update(o)]: it gives the outcome and the items of [d] afterwards, and
    for a dict [o] it merges.  [list_getitem l i] is [l[i]]: an index in
    range, counted from the front or with a minus sign from the back, gives
    the element, any other integer raises. *)
Class Builtins : Type := {
  dict_update : list (string * json) -> json -> Result unit * list (string * json);
  dict_update_mapping d o : dict_update d (JObj o) = (Ok tt, dict_merge d o);
  list_getitem : forall {A : Type}, list A -> json -> Result A;
  list_getitem_front {A} (l : list A) (i : nat) (x : A) :
    l !! i = Some x -> list_getitem l (JInt (Z.of_nat i)) = Ok x;
  list_getitem_back {A} (l : list A) (i : nat) (x : A) :
    i < length l -> l !! (length l - S i) = Some x ->
    list_getitem l (JInt (- Z.of_nat (S i))) = Ok x;
  list_getitem_out {A} (l : list A) (z : Z) :
    (Z.of_nat (length l) <= z \/ z < - Z.of_nat (length l))%Z ->
    exists e, list_getitem l (JInt z) = Raise e }.

Definition json_of_uid (uid : option Z) : json :=
  match uid with Some z => JInt z | None => JNull end.

Section Records.
Context `{Ext : Externals} `{Mod : Models} `{Blt : Builtins}.
Variable remote : Remote.

(** A call of [cls] with the items of [x] as keyword arguments: [x] must
    be a mapping. *)
Definition new_from (cls : ModelClass) (x : json) : Result Model :=
  match x with
  | JObj fields => new_model cls fields
  | _ => Raise TypeError
  end.

(** *** Closing the session *)

Definition close : M unit :=
  await s <- session ;;
  if closed s then ret tt
  else modify (set_session {| cookie_jar := cookie_jar s; closed := true |}).

(** [__aenter__] creates the session; the client itself is the result. *)
Definition aenter : M unit :=
  await _s <- session ;;
  ret tt.

Definition aexit : M unit := close.

(** *** Hoyolab *)

Definition search_users (keyword : string) (lang : option string) : M (list Model) :=
  await data <- request_game_record remote "community/apihub/wapi/search" "GET" false
                  lang None
                  {| params := Some (<["keyword" := JStr keyword]>
                                     (<["size" := JInt 20]> (<["gids" := JInt 2]> ∅)));
                     json_body := None |} ;;
  await l <- lift (getitem data "users") ;;
  await items <- lift (iter_json l) ;;
  lift (comprehension (new_from SearchUser) items).

Definition set_visibility (public : bool) : M unit :=
  await _r <- request_game_record remote "game_record/genshin/wapi/publishGameRecord"
                "POST" false None None
                {| params := None;
                   json_body := Some (JObj [("is_public", JBool public);
                                            ("game_id", JInt 2)]) |} ;;
  ret tt.

(** [limit or 0x10000] *)
Definition page_size_of (limit : option Z) : Z :=
  match limit with
  | Some n => if decide (n = 0%Z) then 65536%Z else n
  | None => 65536%Z
  end.

Definition get_recommended_users (limit : option Z) : M (list Model) :=
  await data <- request_game_record remote "community/user/wapi/recommendActive" "GET"
                  false None None
                  {| params := Some (<["page_size" := JInt (page_size_of limit)]>
                                     (<["offset" := JInt 0]> (<["gids" := JInt 2]> ∅)));
                     json_body := None |} ;;
  await l <- lift (getitem data "list") ;;
  await items <- lift (iter_json l) ;;
  lift (comprehension
          (fun i => match getitem i "user" with
                    | Ok u => new_from SearchUser u
                    | Raise e => Raise e
                    end) items).

(** *** Game record *)

(** [hoyolab_uid or self.hoyolab_uid] *)
Definition uid_or_own (hoyolab_uid_arg : option Z) : M (option Z) :=
  match hoyolab_uid_arg with
  | Some z => if decide (z = 0%Z) then hoyolab_uid else ret (Some z)
  | None => hoyolab_uid
  end.

(** [cards[0]], for a value that passed [if not cards]. *)
Definition first_card (cards : json) : Result json :=
  match cards with
  | JList l => list_getitem l (JInt 0)
  | JStr s =>
      list_getitem (map (fun c => JStr (String c EmptyString))
                      (String.list_ascii_of_string s)) (JInt 0)
  | JObj _ => Raise (KeyError "0")
  | _ => Raise TypeError
  end.

Definition get_record_card (hoyolab_uid_arg : option Z) (lang : option string) : M Model :=
  await uid <- uid_or_own hoyolab_uid_arg ;;
  await data <- request_game_record remote "game_record/card/wapi/getGameRecordCard" "GET"
                  false lang None
                  {| params := Some (<["uid" := json_of_uid uid]> (<["gids" := JInt 2]> ∅));
                     json_body := None |} ;;
  await cards <- lift (getitem data "list") ;;
  if negb (json_truthy cards) then raise (Exception "User's data is not public")
  else
    await card <- lift (first_card cards) ;;
    lift (new_from RecordCard card).

Definition index_params (server : string) (uid : Z) : gmap string json :=
  <["server" := JStr server]> (<["role_id" := JInt uid]> ∅).

(** [data.update(character_data)] in [get_user].  [data] is the object the
    session cache holds under the key of the first request, when the client
    has a cache, so the entry changes with it; what [update] did before
    raising stays done. *)
Definition update_shared (k : CacheKey) (data other : json) : M json :=
  match data with
  | JObj fields =>
      let out := dict_update fields other in
      modify (fun w => match cache (self w) with
                       | Some c => set_cache (<[k := JObj out.2]> c) w
                       | None => w
                       end) ;;;
      lift out.1 ;;;
      ret (JObj out.2)
  | _ => raise AttributeError
  end.

Definition get_user (uid : Z) (lang : option string) : M Model :=
  await server <- lift (recognize_server uid) ;;
  await data <- request_game_record remote "game_record/genshin/api/index" "GET" false
                  lang (Some [KStr "user"; KInt uid])
                  {| params := Some (index_params server uid); json_body := None |} ;;
  await avatars <- lift (getitem data "avatars") ;;
  await chars <- lift (iter_json avatars) ;;
  await character_ids <- lift (comprehension (fun char => getitem char "id") chars) ;;
  await character_data <-
    request_game_record remote "game_record/genshin/api/character" "POST" false
      lang (Some [KStr "characters"; KInt uid])
      {| params := None;
         json_body := Some (JObj [("character_ids", JList character_ids);
                                  ("role_id", JInt uid); ("server", JStr server)]) |} ;;
  await self_lang <- get_lang ;;
  await merged <- update_shared [KStr "user"; KInt uid; KStr (str_or lang self_lang)]
                    data character_data ;;
  lift (new_from UserStats merged).

Definition get_partial_user (uid : Z) (lang : option string) : M Model :=
  await server <- lift (recognize_server uid) ;;
  await data <- request_game_record remote "game_record/genshin/api/index" "GET" false
                  lang (Some [KStr "user"; KInt uid])
                  {| params := Some (index_params server uid); json_body := None |} ;;
  lift (new_from PartialUserStats data).

Definition schedule_type_of (previous : bool) : Z := if previous then 2%Z else 1%Z.

Definition get_spiral_abyss (uid : Z) (previous : bool) : M Model :=
  await server <- lift (recognize_server uid) ;;
  let schedule_type := schedule_type_of previous in
  await data <- request_game_record remote "game_record/genshin/api/spiralAbyss" "GET"
                  false None (Some [KStr "abyss"; KInt uid; KInt schedule_type])
                  {| params := Some (<["server" := JStr server]>
                                     (<["role_id" := JInt uid]>
                                     (<["schedule_type" := JInt schedule_type]> ∅)));
                     json_body := None |} ;;
  lift (new_from SpiralAbyss data).

(** *** Daily rewards *)

(** [DailyRewardInfo(data["is_sign"], data["total_sign_day"])]: the caller
    unpacks it as a pair. *)
Definition get_reward_info (lang : option string) : M (json * json) :=
  await data <- request_daily_reward remote "info" "GET" false lang no_kwargs ;;
  await is_sign <- lift (getitem data "is_sign") ;;
  await total_sign_day <- lift (getitem data "total_sign_day") ;;
  ret (is_sign, total_sign_day).

Definition get_monthly_rewards (lang : option string) : M (list Model) :=
  await data <- request_daily_reward remote "home" "GET" false lang no_kwargs ;;
  await l <- lift (getitem data "awards") ;;
  await items <- lift (iter_json l) ;;
  lift (comprehension (new_from DailyReward) items).

Definition claim_daily_reward (lang : option string) : M (option Model) :=
  await info <- get_reward_info None ;;
  let signed_in := info.1 in
  let claimed_rewards := info.2 in
  if json_truthy signed_in then ret None
  else
    await _r <- request_daily_reward remote "sign" "POST" false None no_kwargs ;;
    await rewards <- get_monthly_rewards lang ;;
    await reward <- lift (list_getitem rewards claimed_rewards) ;;
    ret (Some reward).

(** *** Wish history *)

Definition get_banner_details (banner_id : string) (lang : option string) : M Model :=
  await self_lang <- get_lang ;;
  await data <- request_webstatic remote
                  ("/hk4e/gacha_info/os_asia/" +:+ banner_id +:+ "/"
                   +:+ str_or lang self_lang +:+ ".json") None no_kwargs ;;
  lift (new_from BannerDetails data).
End Records.

(** ** A concrete environment for the rest *)

Module Sample.

(** Models are kept as the class and the fields they were built from. *)
Definition models : Models :=
  {| Model := ModelClass * list (string * json);
     new_model cls fields := Ok (cls, fields) |}.

Definition update (d : list (string * json)) (o : json)
    : Result unit * list (string * json) :=
  match o with
  | JObj items => (Ok tt, dict_merge d items)
  | _ => (Raise TypeError, d)
  end.

Definition index {A : Type} (l : list A) (i : json) : Result A :=
  match i with
  | JInt z =>
      if (0 <=? z)%Z
      then match l !! Z.to_nat z with
           | Some x => Ok x
           | None => Raise (KeyError "index out of range")
           end
      else if (- Z.of_nat (length l) <=? z)%Z
           then match l !! (length l - Z.to_nat (- z)) with
                | Some x => Ok x
                | None => Raise (KeyError "index out of range")
                end
           else Raise (KeyError "index out of range")
  | _ => Raise TypeError
  end.

Lemma index_front {A} (l : list A) (i : nat) (x : A) :
  l !! i = Some x -> index l (JInt (Z.of_nat i)) = Ok x.
Proof.
  intros H. unfold index.
  destruct (Z.leb_spec 0 (Z.of_nat i)); [|lia]. by rewrite Nat2Z.id, H.
Qed.

Lemma index_back {A} (l : list A) (i : nat) (x : A) :
  i < length l -> l !! (length l - S i) = Some x ->
  index l (JInt (- Z.of_nat (S i))) = Ok x.
Proof.
  intros Hi H. unfold index.
  destruct (Z.leb_spec 0 (- Z.of_nat (S i))); [lia|].
  destruct (Z.leb_spec (- Z.of_nat (length l)) (- Z.of_nat (S i))); [|lia].
  by rewrite Z.opp_involutive, Nat2Z.id, H.
Qed.

Lemma index_out {A} (l : list A) (z : Z) :
  (Z.of_nat (length l) <= z \/ z < - Z.of_nat (length l))%Z ->
  exists e, index l (JInt z) = Raise e.
Proof.
  intros H. unfold index.
  destruct (Z.leb_spec 0 z).
  - destruct (l !! Z.to_nat z) eqn:E; [|eauto].
    apply lookup_lt_Some in E. lia.
  - destruct (Z.leb_spec (- Z.of_nat (length l)) z); [lia|eauto].
Qed.

Definition builtins : Builtins :=
  {| dict_update := update;
     dict_update_mapping d o := eq_refl;
     list_getitem := @index;
     list_getitem_front := @index_front;
     list_getitem_back := @index_back;
     list_getitem_out := @index_out |}.

Definition info_answer (signed : bool) (days : Z) : Response :=
  RespEnvelope 0 "OK" (JObj [("is_sign", JBool signed); ("total_sign_day", JInt days)]).

Definition award (name : string) : json := JObj [("name", JStr name); ("cnt", JInt 1)].

Definition awards_answer : Response :=
  RespEnvelope 0 "OK"
    (JObj [("awards", JList [award "Primogem"; award "Mora"; award "Fine Enhancement Ore"])]).

Definition index_answer : Response :=
  RespEnvelope 0 "OK"
    (JObj [("stats", JObj [("active_day_number", JInt 100)]);
           ("avatars", JList [JObj [("id", JInt 10000002)]; JObj [("id", JInt 10000021)]])]).

Definition character_answer : Response :=
  RespEnvelope 0 "OK"
    (JObj [("avatars", JList [JObj [("id", JInt 10000002); ("weapon", JStr "Mistsplitter")];
                              JObj [("id", JInt 10000021); ("weapon", JStr "Rust")]])]).

Definition cards_answer (cards : list json) : Response :=
  RespEnvelope 0 "OK" (JObj [("list", JList cards)]).

Definition abyss_answer (floor : Z) : Response :=
  RespEnvelope 0 "OK" (JObj [("max_floor", JInt floor)]).

(** A client with a session holding a uid cookie and an empty cache. *)
Definition logged_in : GenshinClient :=
  {| _session := Some {| cookie_jar := [ {| key := "ltuid"; value := "94" |};
                                         {| key := "ltoken"; value := "secret" |} ];
                         closed := false |};
     cache := Some ∅; authkey := None; lang := "en-us"; debug := false |}.

End Sample.

(** ** Notions used in the statements on the rest *)

(** What [request] makes of an answer of the remote. *)
Definition envelope_result (r : Response) : Result json :=
  match r with
  | RespFail msg => Raise (ClientError msg)
  | RespEnvelope retcode message data =>
      if decide (retcode = 0%Z) then Ok data
      else Raise (Exception (remote_error_text retcode message))
  | RespStatic _ => Raise (KeyError "retcode")
  end.



(** The request [request_game_record] puts on the wire in world [w]. *)
Definition game_record_wire `{Ext : Externals} (endpoint method : string) (chinese : bool)
    (language : option string) (kwargs : Kwargs) (w : World) : HttpRequest :=
  wire (record_url chinese endpoint) method
    (Some (record_headers chinese (str_or language (self_lang w)))) kwargs w.

(** The parameters [request_daily_reward] sends. *)
Definition reward_params (chinese : bool) (language : option string) (kwargs : Kwargs)
    (w : World) : gmap string json :=
  <["act_id" := JStr (if chinese then Const.CN_ACT_ID else Const.OS_ACT_ID)]>
    (<["lang" := JStr (str_or language (self_lang w))]> (default ∅ (params kwargs))).

(** The request [request_daily_reward] puts on the wire in world [w]. *)
Definition reward_wire `{Ext : Externals} (endpoint method : string) (chinese : bool)
    (language : option string) (kwargs : Kwargs) (w : World) : HttpRequest :=
  wire (url_join (if chinese then Const.CN_REWARD_URL else Const.OS_REWARD_URL) endpoint)
    method None
    {| params := Some (reward_params chinese language kwargs w);
       json_body := json_body kwargs |} w.

(** The items of the jar with the key [k], in the order of the jar. *)
Definition cookies_named (k : string) (jar : list Morsel) : list Morsel :=
  List.filter (fun cookie => bool_decide (key cookie = k)) jar.

(** The key [get_spiral_abyss] caches a period under, for a client with the
    language [sl]. *)
Definition abyss_key (uid : Z) (previous : bool) (sl : string) : CacheKey :=
  [KStr "abyss"; KInt uid; KInt (schedule_type_of previous); KStr sl].

(** What [get_reward_info] makes of the data of the [info] endpoint. *)
Definition reward_info_of (r : Result json) : Result (json * json) :=
  match r with
  | Raise e => Raise e
  | Ok data =>
      match getitem data "is_sign" with
      | Raise e => Raise e
      | Ok is_sign =>
          match getitem data "total_sign_day" with
          | Raise e => Raise e
          | Ok total_sign_day => Ok (is_sign, total_sign_day)
          end
      end
  end.

(** What [get_monthly_rewards] makes of the data of the [home] endpoint. *)
Definition monthly_rewards_of `{Mod : Models} (r : Result json) : Result (list Model) :=
  match r with
  | Raise e => Raise e
  | Ok data =>
      match getitem data "awards" with
      | Raise e => Raise e
      | Ok l =>
          match iter_json l with
          | Raise e => Raise e
          | Ok items => comprehension (fun i => match i with
                                                | JObj fields => new_model DailyReward fields
                                                | _ => Raise TypeError
                                                end) items
          end
      end
  end.

(** The URL [_get_transaction_reasons] asks for. *)
Definition reasons_url (language : string) : string :=
  "https://mi18n-os.mihoyo.com/webstatic/admin/mi18n/hk4e_global/"
  +:+ "m02251421001311/m02251421001311-" +:+ language +:+ ".json".

(** The request [get_banner_types] puts on the wire in world [w]. *)
Definition banner_types_wire `{Ext : Externals} (language key : option string)
    (w : World) : HttpRequest :=
  wire (url_join Const.GACHA_INFO_URL "getConfigList") "GET" None
    {| params :=
         Some (<["lang" := JStr (get_short_lang_code (str_or language (self_lang w)))]>
               (<["authkey" := opt_json (opt_str_or key (authkey (self w)))]>
               (<["authkey_ver" := JInt 1]> ∅)));
       json_body := None |} w.

(** The request [_get_transaction_reasons] puts on the wire in world [w]. *)
Definition reasons_wire `{Ext : Externals} (language : string) (w : World) : HttpRequest :=
  wire (url_join Const.WEBSTATIC_URL (reasons_url language)) "GET" None no_kwargs w.

(** * Theorems *)

(** ** Decimal rendering of the retcode *)

(** Membership in a list of literals, by evaluation. *)
Ltac by_listing := apply (bool_decide_unpack _); by vm_compute.

Lemma pretty_N_char_sign (x : N) : pretty_N_char x ∈ sign_chars.
Proof. unfold pretty_N_char. repeat case_match; by_listing. Qed.

Lemma pretty_N_go_chars (x : N) :
  ∀ s c, c ∈ chars (pretty_N_go x s) → c ∈ sign_chars ∨ c ∈ chars s.
Proof.
  induction (N.lt_wf_0 x) as [x _ IH]; intros s c Hc.
  destruct (decide (x = 0%N)) as [->|Hx].
  - rewrite pretty_N_go_0 in Hc. by right.
  - rewrite pretty_N_go_step in Hc by lia.
    apply IH in Hc; [|apply N.div_lt; lia].
    destruct Hc as [Hc|Hc]; [by left|].
    cbn in Hc. apply elem_of_cons in Hc as [->|Hc]; [|by right].
    left. apply pretty_N_char_sign.
Qed.

Lemma pretty_N_chars (x : N) c : c ∈ chars (pretty x) → c ∈ sign_chars.
Proof.
  unfold pretty, pretty_N. case_decide.
  - cbn. intros ->%list_elem_of_singleton. set_solver.
  - intros [?|Hc]%pretty_N_go_chars; [done|]. cbn in Hc. set_solver.
Qed.

Lemma pretty_Z_chars (z : Z) c : c ∈ chars (pretty z) → c ∈ sign_chars.
Proof.
  destruct z as [|p|p]; unfold pretty, pretty_Z.
  - cbn. intros ->%list_elem_of_singleton. set_solver.
  - apply (pretty_N_chars (Npos p)).
  - cbn. intros [->|Hc]%elem_of_cons; [set_solver|].
    by apply (pretty_N_chars (Npos p)).
Qed.

Lemma space_not_sign : " "%char ∉ sign_chars.
Proof. by_listing. Qed.

(** Two texts [s1 - t1] and [s2 - t2] whose left parts have no space are
    equal only when both parts are. *)
Lemma split_at_space (s1 s2 t1 t2 : string) :
  " "%char ∉ chars s1 → " "%char ∉ chars s2 →
  s1 +:+ String " " t1 = s2 +:+ String " " t2 → s1 = s2 ∧ t1 = t2.
Proof.
  revert s2. induction s1 as [|a s1 IH]; intros [|b s2] H1 H2 Heq; cbn in *.
  - by injection Heq.
  - injection Heq as <- _. exfalso. apply H2. apply list_elem_of_here.
  - injection Heq as -> _. exfalso. apply H1. apply list_elem_of_here.
  - injection Heq as -> Heq.
    destruct (IH s2) as [-> ->]; [| |done|done].
    + intros ?. apply H1. by apply list_elem_of_further.
    + intros ?. apply H2. by apply list_elem_of_further.
Qed.

Lemma remote_error_text_inj (r1 r2 : Z) (m1 m2 : string) :
  remote_error_text r1 m1 = remote_error_text r2 m2 → r1 = r2 ∧ m1 = m2.
Proof.
  unfold remote_error_text. intros Heq.
  apply split_at_space in Heq as [Hr Hm].
  - split; [by apply (inj pretty)|]. by injection Hm.
  - intros H%pretty_Z_chars. by apply space_not_sign.
  - intros H%pretty_Z_chars. by apply space_not_sign.
Qed.

Lemma remote_error_text_head (r : Z) (m : string) c rest :
  remote_error_text r m = String c rest → c ∈ " "%char :: sign_chars.
Proof.
  unfold remote_error_text. destruct (pretty r) as [|a s] eqn:E; cbn.
  - intros [= <- _]. set_solver.
  - intros [= <- _]. apply elem_of_cons. right.
    apply (pretty_Z_chars r). rewrite E. cbn. set_solver.
Qed.

(** ** The request layer *)

Section ClientFacts.
Context `{Ext : Externals}.
Variable remote : Remote.

Lemma http_count_with_session (w : World) : http_count (with_session w) = http_count w.
Proof. unfold with_session. by destruct (_session (self w)). Qed.

Lemma session_run (w : World) : session w = (Ok (session_of w), with_session w).
Proof. unfold session, session_of, with_session. by destruct (_session (self w)). Qed.

Lemma session_of_with_session (w : World) : session_of (with_session w) = session_of w.
Proof. unfold with_session, session_of. by destruct (_session (self w)) eqn:E; cbn; rewrite ?E. Qed.

(** What one call of [request] does, by the answer of the remote. *)
Lemma request_run (url method : string) headers kwargs (w : World) :
  request remote url method headers kwargs w =
    let r := wire url method headers kwargs w in
    let w1 := emit (EvHttp r) (with_session w) in
    match remote (http_count w) r with
    | RespFail msg => (Raise (ClientError msg), w1)
    | RespEnvelope retcode message data =>
        (if decide (retcode = 0%Z) then Ok data
         else Raise (Exception (remote_error_text retcode message)),
         printed r (RespEnvelope retcode message data) w1)
    | RespStatic body => (Raise (KeyError "retcode"), printed r (RespStatic body) w1)
    end.
Proof.
  unfold request, bind. rewrite session_run. unfold send.
  rewrite http_count_with_session. cbn.
  fold (wire url method headers kwargs w).
  destruct (remote (http_count w) (wire url method headers kwargs w))
    as [msg|retcode message data|body]; [done| |].
  - unfold debug_print, bind, gets, get_lang, printed, modify, ret, raise. cbn.
    destruct (debug (self (with_session w))); by destruct (decide (retcode = 0%Z)).
  - unfold debug_print, bind, gets, printed, modify, ret, raise. cbn.
    by destruct (debug (self (with_session w))).
Qed.

Lemma trace_printed sent r (w : World) : trace (printed sent r w) = trace w.
Proof. unfold printed. by destruct (debug (self w)). Qed.

Lemma self_printed sent r (w : World) : self (printed sent r w) = self w.
Proof. unfold printed. by destruct (debug (self w)). Qed.

Lemma trace_with_session (w : World) : trace (with_session w) = trace w.
Proof. unfold with_session. by destruct (_session (self w)). Qed.

Lemma cache_with_session (w : World) : cache (self (with_session w)) = cache (self w).
Proof. unfold with_session. by destruct (_session (self w)). Qed.

(** Every call of [request] puts exactly one request on the wire. *)
Lemma request_trace (url method : string) headers kwargs (w : World) :
  trace (request remote url method headers kwargs w).2
  = trace w ++ [EvHttp (wire url method headers kwargs w)].
Proof.
  rewrite request_run. cbn.
  destruct (remote _ _); cbn; rewrite ?trace_printed; cbn;
    by rewrite trace_with_session.
Qed.

Lemma request_cache (url method : string) headers kwargs (w : World) :
  cache (self (request remote url method headers kwargs w).2) = cache (self w).
Proof.
  rewrite request_run. cbn.
  destruct (remote _ _); cbn; rewrite ?self_printed; cbn;
    by rewrite cache_with_session.
Qed.

Lemma request_never_no_cookies (url method : string) headers kwargs (w : World) :
  (request remote url method headers kwargs w).1 ≠ Raise (Exception "No cookies provided").
Proof.
  rewrite request_run. cbn.
  destruct (remote _ _) as [msg|retcode message data|body]; cbn; [done| |done].
  destruct (decide (retcode = 0%Z)); [done|].
  intros [= Htext]. apply remote_error_text_head in Htext.
  revert Htext. by_listing.
Qed.

Lemma cookies_run (w : World) :
  cookies w =
    (Ok (Some (foldl (fun d cookie => <[key cookie := value cookie]> d) ∅
                 (cookie_jar (session_of w)))), with_session w).
Proof. unfold cookies, bind. by rewrite session_run. Qed.

(** What one call of [request_game_record] does. *)
Lemma request_game_record_run (endpoint method : string) (chinese : bool)
    (language : option string) (tuple : option CacheKey) kwargs (w : World) :
  request_game_record remote endpoint method chinese language tuple kwargs w =
    let k := effective_key tuple language (self_lang w) in
    match cached_value (cache (self w)) k with
    | Some stored => (Ok stored, w)
    | None =>
        match request remote (record_url chinese endpoint) method
                (Some (record_headers chinese (str_or language (self_lang w))))
                kwargs (with_session w) with
        | (Ok data, w2) => (Ok data, (store k data w2).2)
        | (Raise e, w2) => (Raise e, w2)
        end
    end.
Proof.
  unfold request_game_record, bind, get_lang, get_cache, gets, self_lang. cbn.
  destruct (cached_value _ _) as [stored|]; [done|].
  rewrite cookies_run.
  destruct (request _ _ _ _ _ _) as [[data|e] w2]; [|done].
  unfold store, bind, get_cache, gets, modify, ret. cbn.
  destruct (tuple_truthy _); [|done].
  by destruct (effective_key _ _ _), (cache (self w2)).
Qed.
End ClientFacts.

Section RequestLayer.
Context `{Ext : Externals}.
Variable remote : Remote.

(** C3.  When the remote answers a call of [request] with the envelope
    [{retcode, message, data}]: a zero retcode makes the call return
    [data]; any other retcode makes it raise, returning no value, an
    exception whose text is the decimal retcode, [" - "] and the message
    unchanged; and that text determines both the retcode and the
    message. *)
Theorem request_envelope (url method : string) headers kwargs (w : World)
    (retcode : Z) (message : string) (data : json) :
  remote (http_count w) (wire url method headers kwargs w)
    = RespEnvelope retcode message data →
  (retcode = 0%Z → (request remote url method headers kwargs w).1 = Ok data)
  ∧ (retcode ≠ 0%Z →
       (request remote url method headers kwargs w).1
         = Raise (Exception (pretty retcode +:+ " - " +:+ message))
       ∧ ∀ v, (request remote url method headers kwargs w).1 ≠ Ok v)
  ∧ (∀ retcode' message',
       remote_error_text retcode' message' = remote_error_text retcode message →
       retcode' = retcode ∧ message' = message).
Proof.
  intros Hanswer. rewrite request_run. cbn. rewrite Hanswer. cbn.
  split; [|split].
  - intros ->. done.
  - intros Hne. by destruct (decide (retcode = 0%Z)).
  - intros r' m'. apply remote_error_text_inj.
Qed.

(** C9.  The [cookies] property returns a mapping for every client, never
    [None]; so neither [request_game_record] nor [request_daily_reward]
    ever raises the error "No cookies provided". *)
Theorem cookies_never_None (w : World) :
  (∃ d, (cookies w).1 = Ok (Some d))
  ∧ (∀ endpoint method chinese lang cache kwargs,
       (request_game_record remote endpoint method chinese lang cache kwargs w).1
         ≠ Raise (Exception "No cookies provided"))
  ∧ (∀ endpoint method chinese lang kwargs,
       (request_daily_reward remote endpoint method chinese lang kwargs w).1
         ≠ Raise (Exception "No cookies provided")).
Proof.
  split; [|split].
  - rewrite cookies_run. eauto.
  - intros endpoint method chinese lang0 cache0 kwargs.
    rewrite request_game_record_run. cbn.
    destruct (cached_value _ _) as [stored|]; [done|].
    match goal with
    | |- context [request remote ?u ?m ?h ?k ?w'] =>
        pose proof (request_never_no_cookies remote u m h k w') as Hreq;
        destruct (request remote u m h k w') as [[data|e] w2]
    end; cbn in *; done.
  - intros endpoint method chinese lang0 kwargs.
    unfold request_daily_reward, bind. rewrite cookies_run.
    unfold get_lang, gets. apply request_never_no_cookies.
Qed.

(** C10.  [hoyolab_uid] looks for the first cookie of the jar whose key is
    [ltuid] or [account_id]: with such a cookie the result is [int] of its
    value, without one the result is [None] and nothing is raised. *)
Theorem hoyolab_uid_first_cookie (w : World) :
  (hoyolab_uid w).1 =
    match List.find (fun cookie => bool_decide (key cookie ∈ ["ltuid"; "account_id"]))
                    (cookie_jar (session_of w)) with
    | Some cookie =>
        match py_int (value cookie) with
        | Ok n => Ok (Some n)
        | Raise e => Raise e
        end
    | None => Ok None
    end.
Proof.
  unfold hoyolab_uid, bind, lift. rewrite session_run. cbn.
  induction (cookie_jar (session_of w)) as [|cookie jar IH]; [done|].
  cbn. by destruct (bool_decide _).
Qed.
End RequestLayer.

(** [hoyolab_uid] on three jars: the first matching cookie decides, a jar
    without one gives [None], a value that is not a number makes [int]
    raise. *)
Example hoyolab_uid_examples :
  let client_with jar :=
    Demo.world_of {| _session := Some {| cookie_jar := jar; closed := false |};
                     cache := None; authkey := None; lang := "en-us"; debug := false |} in
  (hoyolab_uid (Ext:=Demo.externals)
     (client_with [ {| key := "mi18nLang"; value := "en-us" |};
                    {| key := "account_id"; value := "42" |};
                    {| key := "ltuid"; value := "7" |} ])).1 = Ok (Some 42%Z)
  ∧ (hoyolab_uid (Ext:=Demo.externals)
       (client_with [ {| key := "mi18nLang"; value := "en-us" |} ])).1 = Ok None
  ∧ (hoyolab_uid (Ext:=Demo.externals) (Demo.world_of Demo.client0)).1 = Ok None
  ∧ (hoyolab_uid (Ext:=Demo.externals)
       (client_with [ {| key := "ltuid"; value := "abc" |} ])).1
    = Raise (ValueError "abc").
Proof. by vm_compute. Qed.

(** Witness of [request_envelope]: a refusal with retcode -2003. *)
Lemma request_envelope_witness :
  (request (Ext:=Demo.externals) (Demo.scripted [Demo.refused_answer] Demo.ok_answer)
     "https://example.invalid/api" "GET" None no_kwargs (Demo.world_of Demo.client0)).1
  = Raise (Exception "-2003 - Invalid redemption code").
Proof.
  destruct (request_envelope (Ext:=Demo.externals)
              (Demo.scripted [Demo.refused_answer] Demo.ok_answer)
              "https://example.invalid/api" "GET" None no_kwargs
              (Demo.world_of Demo.client0) (-2003) "Invalid redemption code" JNull
              eq_refl) as (_ & Hraise & _).
  apply Hraise. discriminate.
Defined.

Section SessionCache.
Context `{Ext : Externals}.
Variable remote : Remote.

Lemma store_run (k : option CacheKey) (data : json) (w : World) :
  store k data w =
    (Ok tt,
     if tuple_truthy k
     then match k, cache (self w) with
          | Some key, Some c => set_cache (<[key := data]> c) w
          | _, _ => w
          end
     else w).
Proof.
  unfold store, bind, get_cache, gets, modify, ret. cbn.
  destruct (tuple_truthy k); [|done]. by destruct k, (cache (self w)).
Qed.

Lemma effective_key_nonempty (t : CacheKey) (language : option string) (sl : string) :
  t ≠ [] → effective_key (Some t) language sl = Some (t ++ [KStr (str_or language sl)]).
Proof. by destruct t. Qed.

Lemma effective_key_truthy (t : CacheKey) (language : option string) (sl : string) :
  t ≠ [] → tuple_truthy (Some (t ++ [KStr (str_or language sl)])) = true.
Proof. by destruct t. Qed.

Lemma cached_value_hit (c : gmap CacheKey json) (k : CacheKey) (v : json) :
  k ≠ [] → c !! k = Some v → cached_value (Some c) (Some k) = Some v.
Proof.
  intros Hk Hv. unfold cached_value.
  assert (tuple_truthy (Some k) = true) as -> by by destruct k.
  assert (mapping_truthy (Some c) = true) as ->; [|done].
  cbn. apply negb_true_iff, Nat.eqb_neq. intros Hsize%map_size_empty_iff.
  by rewrite Hsize, lookup_empty in Hv.
Qed.

Lemma cached_value_sound (sc : option (gmap CacheKey json)) (k : option CacheKey) v :
  cached_value sc k = Some v → ∃ c key, sc = Some c ∧ k = Some key ∧ c !! key = Some v.
Proof.
  unfold cached_value. destruct (_ && _); [|done].
  destruct sc as [c|], k as [key|]; cbn; try done. eauto.
Qed.

(** The session cache after a call of [request_game_record]. *)
Lemma request_game_record_cache endpoint method chinese language tuple kwargs (w : World) :
  let out := request_game_record remote endpoint method chinese language tuple kwargs w in
  let k := effective_key tuple language (self_lang w) in
  cache (self out.2) =
    match cached_value (cache (self w)) k, out.1 with
    | None, Ok v =>
        if tuple_truthy k
        then match k, cache (self w) with
             | Some key, Some c => Some (<[key := v]> c)
             | _, _ => cache (self w)
             end
        else cache (self w)
    | _, _ => cache (self w)
    end.
Proof.
  intros out k. unfold out, k. clear out k.
  rewrite request_game_record_run. cbv zeta.
  destruct (cached_value _ _) as [stored|]; [done|].
  match goal with
  | |- context [request remote ?u ?m ?h ?kw ?w'] =>
      pose proof (request_cache remote u m h kw w') as Hc;
      destruct (request remote u m h kw w') as [[data|e] w2]
  end; cbn [fst snd] in *; rewrite cache_with_session in Hc; [|done].
  rewrite store_run. cbn [fst snd]. destruct (tuple_truthy _); [|done].
  destruct (effective_key _ _ _); [|done].
  rewrite Hc. by destruct (cache (self w)).
Qed.

(** The guard of the access key.  Without an access key, neither per call
    nor on the client, [request_gacha_info] and [request_transaction] raise
    at once: the world, and so the trace of network calls, is unchanged. *)
Lemma authkey_missing_fails_fast endpoint method language kwargs (w : World) :
  authkey (self w) = None →
  request_gacha_info remote endpoint method language None kwargs w
    = (Raise (Exception "No authkey provided"), w)
  ∧ request_transaction remote endpoint method language None kwargs w
    = (Raise (Exception "No authkey provided"), w).
Proof.
  intros Hkey.
  unfold request_gacha_info, request_transaction, bind, get_authkey, get_lang, gets.
  cbn. by rewrite Hkey.
Qed.

(** Whatever the cookies, a call of [request_game_record] that is not
    answered from the cache puts one request on the wire, carrying the
    cookies of the jar. *)
Lemma game_record_always_sends endpoint method chinese language tuple kwargs (w : World) :
  cached_value (cache (self w)) (effective_key tuple language (self_lang w)) = None →
  ∃ r, trace (request_game_record remote endpoint method chinese language tuple kwargs w).2
         = trace w ++ [EvHttp r]
       ∧ req_cookies r = cookie_jar (session_of w).
Proof.
  intros Hmiss. rewrite request_game_record_run. cbv zeta. rewrite Hmiss.
  match goal with
  | |- context [request remote ?u ?m ?h ?kw ?w'] =>
      pose proof (request_trace remote u m h kw w') as Ht;
      destruct (request remote u m h kw w') as [[data|e] w2]
  end; cbn [fst snd] in *; rewrite trace_with_session in Ht.
  - eexists. split.
    + rewrite store_run. cbn [fst snd]. etrans; [|exact Ht].
      destruct (tuple_truthy _); [|done].
      by destruct (effective_key _ _ _), (cache (self w2)).
    + cbn. by rewrite session_of_with_session.
  - eexists. split; [exact Ht|]. cbn. by rewrite session_of_with_session.
Qed.

End SessionCache.

(** C2.  A client without any credential (no session yet, hence an empty
    cookie jar, and no access key) calls [request_game_record]: the request
    goes on the wire without cookies and the answer of the remote is
    returned; the same holds for [request_daily_reward]. *)
Theorem game_record_sent_without_cookies :
  let w := Demo.world_of Demo.client0 in
  let remote := Demo.scripted [Demo.accounts_answer] Demo.ok_answer in
  let out := request_game_record (Ext:=Demo.externals) remote
               "binding/api/getUserGameRolesByCookie" "GET" false None None no_kwargs w in
  let out' := request_daily_reward (Ext:=Demo.externals) remote
                "info" "GET" false None no_kwargs w in
  cookie_jar (session_of w) = [] ∧ authkey (self w) = None
  ∧ (∃ r, trace out.2 = [EvHttp r] ∧ req_cookies r = [])
  ∧ (∃ data, out.1 = Ok data)
  ∧ (∃ r, trace out'.2 = [EvHttp r] ∧ req_cookies r = [])
  ∧ (∃ data, out'.1 = Ok data).
Proof.
  cbv zeta. split; [done|]. split; [done|]. split; [|split; [|split]].
  - eexists. split; vm_compute; reflexivity.
  - eexists. vm_compute. reflexivity.
  - eexists. split; vm_compute; reflexivity.
  - eexists. vm_compute. reflexivity.
Qed.

(** ** Paginator factories *)

(** C8.  Without a category [wish_history] and [transaction_log] build the
    merged paginator, with a category the paginator of that category; the
    paginator gets the caller's [limit] and [end_id], and when the caller
    leaves them out, no limit and the cutoff 0. *)
Theorem history_factories (client : GenshinClient) (o : HistoryOptions) :
  wish_history client None o
    = MergedWishHistory client (opt_lang o) (opt_authkey o) (opt_limit o)
        (default 0%Z (opt_end_id o))
  ∧ (∀ banner_type,
       wish_history client (Some banner_type) o
         = WishHistory client banner_type (opt_lang o) (opt_authkey o) (opt_limit o)
             (default 0%Z (opt_end_id o)))
  ∧ transaction_log client None o
    = MergedTransactions client (opt_lang o) (opt_authkey o) (opt_limit o)
        (default 0%Z (opt_end_id o))
  ∧ (∀ kind,
       transaction_log client (Some kind) o
         = Transactions client kind (opt_lang o) (opt_authkey o) (opt_limit o)
             (default 0%Z (opt_end_id o)))
  ∧ (∀ banner_type,
       wish_is_merged (wish_history client banner_type o)
         = bool_decide (banner_type = None)
       ∧ wish_category (wish_history client banner_type o) = banner_type
       ∧ wish_limit (wish_history client banner_type o) = opt_limit o
       ∧ wish_end_id (wish_history client banner_type o) = default 0%Z (opt_end_id o)
       ∧ wish_limit (wish_history client banner_type no_options) = None
       ∧ wish_end_id (wish_history client banner_type no_options) = 0%Z)
  ∧ (∀ kind,
       transactions_is_merged (transaction_log client kind o)
         = bool_decide (kind = None)
       ∧ transactions_category (transaction_log client kind o) = kind
       ∧ transactions_limit (transaction_log client kind o) = opt_limit o
       ∧ transactions_end_id (transaction_log client kind o)
         = default 0%Z (opt_end_id o)
       ∧ transactions_limit (transaction_log client kind no_options) = None
       ∧ transactions_end_id (transaction_log client kind no_options) = 0%Z).
Proof.
  repeat split; try done.
  all: by destruct banner_type || by destruct kind.
Qed.

(** ** Permanent caches *)

Section PermanentCache.
Context `{Ext : Externals}.
Variable remote : Remote.

Lemma http_count_trace (w w' : World) (r : HttpRequest) :
  trace w' = trace w ++ [EvHttp r] → http_count w' = S (http_count w).
Proof.
  unfold http_count. intros ->. rewrite List.filter_app, length_app. cbn. lia.
Qed.

Lemma request_gacha_info_trace endpoint method language key kwargs (w w' : World) v :
  request_gacha_info remote endpoint method language key kwargs w = (Ok v, w') →
  ∃ r, trace w' = trace w ++ [EvHttp r].
Proof.
  unfold request_gacha_info, bind, get_authkey, get_lang, gets. cbn.
  intros Hrun.
  assert (∃ u h kw, request remote u method h kw w = (Ok v, w')) as (u & h & kw & Hreq).
  { destruct key, (authkey (self w)); try done; eauto. }
  pose proof (request_trace remote u method h kw w) as Ht.
  rewrite Hreq in Ht. eauto.
Qed.

Lemma request_webstatic_trace url headers kwargs (w : World) :
  ∃ r, trace (request_webstatic remote url headers kwargs w).2 = trace w ++ [EvHttp r].
Proof.
  unfold request_webstatic, bind. rewrite session_run. unfold send. cbn.
  eexists. destruct (remote _ _); cbn; by rewrite trace_with_session.
Qed.

Lemma fetch_banner_types_trace language key (w w' : World) v :
  fetch_banner_types remote language key w = (Ok v, w') →
  ∃ r, trace w' = trace w ++ [EvHttp r].
Proof.
  unfold fetch_banner_types, bind, lift, ret. intros Hrun.
  destruct (request_gacha_info _ _ _ _ _ _ _) as [[data|e] w1] eqn:Hreq; [|done].
  apply request_gacha_info_trace in Hreq.
  destruct (getitem data _); [|done].
  destruct (iter_json _); [|done].
  destruct (comprehension _ _); [|done].
  by injection Hrun as _ <-.
Qed.

Lemma fetch_transaction_reasons_trace language (w w' : World) v :
  fetch_transaction_reasons remote language w = (Ok v, w') →
  ∃ r, trace w' = trace w ++ [EvHttp r].
Proof.
  unfold fetch_transaction_reasons, bind. intros Hrun.
  match type of Hrun with
  | context [request_webstatic remote ?u ?h ?kw w] =>
      destruct (request_webstatic_trace u h kw w) as [r Hr];
      destruct (request_webstatic remote u h kw w) as [[data|e] w1]
  end; [|done].
  exists r. destruct data; try done. by injection Hrun as _ <-.
Qed.

Lemma stores_after_request (w : World) (sent : HttpRequest) (r : Response) :
  banner_types_cache (printed sent r (emit (EvHttp sent) (with_session w)))
    = banner_types_cache w
  ∧ transaction_reasons_cache (printed sent r (emit (EvHttp sent) (with_session w)))
    = transaction_reasons_cache w
  ∧ banner_types_cache (emit (EvHttp sent) (with_session w)) = banner_types_cache w
  ∧ transaction_reasons_cache (emit (EvHttp sent) (with_session w))
    = transaction_reasons_cache w.
Proof.
  unfold printed, with_session.
  by destruct (_session (self w)), (debug (self w)); cbn;
    repeat match goal with |- context [if ?b then _ else _] => destruct b end.
Qed.

(** C4.  [get_banner_types] and [_get_transaction_reasons] are memoized
    under the language argument alone.  When a call returns a value, the
    next call with the same language returns that value and leaves the
    world unchanged: no request is made, whatever the remote would answer
    now and whatever access key is passed.  When the language was not in
    the store, the first call made exactly one request, which is then the
    only one of the two calls.  A language that is in the store is answered
    from it at once, whatever the access key.  A language that is not makes
    the body run: when the remote answers the one request with a catalog
    that can be read, the call returns the mapping read from it, the store
    gets it under the language, every other entry stays, and the same call
    again, with any access key, returns it without a request. *)
Theorem permanent_cache_by_language (w w1 : World) :
  (∀ language key key' v,
     get_banner_types remote language key w = (Ok v, w1) →
     get_banner_types remote language key' w1 = (Ok v, w1)
     ∧ (banner_types_cache w !! language = None →
        http_count w1 = S (http_count w)
        ∧ http_count (get_banner_types remote language key' w1).2
          = S (http_count w)))
  ∧ (∀ language v,
       _get_transaction_reasons remote language w = (Ok v, w1) →
       _get_transaction_reasons remote language w1 = (Ok v, w1)
       ∧ (transaction_reasons_cache w !! language = None →
          http_count w1 = S (http_count w)
          ∧ http_count (_get_transaction_reasons remote language w1).2
            = S (http_count w)))
  ∧ (∀ language key v,
       banner_types_cache w !! language = Some v →
       get_banner_types remote language key w = (Ok v, w))
  ∧ (∀ language v,
       transaction_reasons_cache w !! language = Some v →
       _get_transaction_reasons remote language w = (Ok v, w))
  ∧ (∀ language key message data l items entries,
       banner_types_cache w !! language = None →
       ¬ (key = None ∧ authkey (self w) = None) →
       remote (http_count w) (banner_types_wire language key w)
         = RespEnvelope 0 message data →
       getitem data "gacha_type_list" = Ok l →
       iter_json l = Ok items →
       comprehension banner_entry items = Ok entries →
       let v := foldl (fun d kv => <[kv.1 := kv.2]> d) ∅ entries in
       let out := get_banner_types remote language key w in
       out.1 = Ok v
       ∧ trace out.2 = trace w ++ [EvHttp (banner_types_wire language key w)]
       ∧ banner_types_cache out.2 = <[language := v]> (banner_types_cache w)
       ∧ ∀ key', get_banner_types remote language key' out.2 = (Ok v, out.2))
  ∧ (∀ language fields,
       transaction_reasons_cache w !! language = None →
       remote (http_count w) (reasons_wire language w) = RespStatic (JObj fields) →
       let v := foldl (fun d kv =>
                         if String.prefix "selfinquiry_general_reason_" kv.1
                         then <[last_segment "" kv.1 := kv.2]> d else d) ∅ fields in
       let out := _get_transaction_reasons remote language w in
       out.1 = Ok v
       ∧ trace out.2 = trace w ++ [EvHttp (reasons_wire language w)]
       ∧ transaction_reasons_cache out.2 = <[language := v]> (transaction_reasons_cache w)
       ∧ _get_transaction_reasons remote language out.2 = (Ok v, out.2)).
Proof.
  split; [|split; [|split; [|split; [|split]]]].
  - intros language key key' v Hrun.
    unfold get_banner_types, getOrCompute in Hrun.
    assert (get_banner_types remote language key' w1 = (Ok v, w1)) as Hagain.
    { unfold get_banner_types, getOrCompute.
      destruct (banner_types_cache w !! language) as [v0|] eqn:Hold.
      - injection Hrun as <- <-. by rewrite Hold.
      - destruct (fetch_banner_types _ _ _ _) as [[v1|e] w2]; [|done].
        injection Hrun as <- <-. cbn. by rewrite lookup_insert_eq. }
    split; [done|]. intros Hmiss. rewrite Hagain. cbn. rewrite Hmiss in Hrun.
    destruct (fetch_banner_types _ _ _ _) as [[v1|e] w2] eqn:Hfetch; [|done].
    apply fetch_banner_types_trace in Hfetch as [r Hr].
    injection Hrun as _ <-.
    assert (http_count (set_banner_types_cache
              (<[language:=v1]> (banner_types_cache w2)) w2) = S (http_count w)) as Hn
      by by apply (http_count_trace _ _ r).
    done.
  - intros language v Hrun.
    unfold _get_transaction_reasons, getOrCompute in Hrun.
    assert (_get_transaction_reasons remote language w1 = (Ok v, w1)) as Hagain.
    { unfold _get_transaction_reasons, getOrCompute.
      destruct (transaction_reasons_cache w !! language) as [v0|] eqn:Hold.
      - injection Hrun as <- <-. by rewrite Hold.
      - destruct (fetch_transaction_reasons _ _ _) as [[v1|e] w2]; [|done].
        injection Hrun as <- <-. cbn. by rewrite lookup_insert_eq. }
    split; [done|]. intros Hmiss. rewrite Hagain. cbn. rewrite Hmiss in Hrun.
    destruct (fetch_transaction_reasons _ _ _) as [[v1|e] w2] eqn:Hfetch; [|done].
    apply fetch_transaction_reasons_trace in Hfetch as [r Hr].
    injection Hrun as _ <-.
    assert (http_count (set_transaction_reasons_cache
              (<[language:=v1]> (transaction_reasons_cache w2)) w2)
            = S (http_count w)) as Hn
      by by apply (http_count_trace _ _ r).
    done.
  - intros language key v Hhit. unfold get_banner_types, getOrCompute. by rewrite Hhit.
  - intros language v Hhit. unfold _get_transaction_reasons, getOrCompute.
    by rewrite Hhit.
  - intros language key message data l items entries Hmiss Hkey Hanswer Hlist Hiter
      Hentries v out.
    assert (fetch_banner_types remote language key w
            = (Ok v, printed (banner_types_wire language key w)
                       (RespEnvelope 0 message data)
                       (emit (EvHttp (banner_types_wire language key w))
                          (with_session w)))) as Hfetch.
    { unfold fetch_banner_types, bind.
      assert (request_gacha_info remote "getConfigList" "GET" language key no_kwargs w
              = request remote (url_join Const.GACHA_INFO_URL "getConfigList") "GET" None
                  {| params :=
                       Some (<["lang" := JStr (get_short_lang_code
                                                 (str_or language (self_lang w)))]>
                             (<["authkey" := opt_json (opt_str_or key (authkey (self w)))]>
                             (<["authkey_ver" := JInt 1]> ∅)));
                     json_body := None |} w) as ->.
      { unfold request_gacha_info, bind, get_authkey, get_lang, gets. cbn.
        destruct key, (authkey (self w)) eqn:Hself; try done.
        exfalso. by apply Hkey. }
      rewrite request_run. cbv zeta. fold (banner_types_wire language key w).
      rewrite Hanswer. cbn [fst snd]. unfold lift, ret.
      destruct (decide (0%Z = 0%Z)); [|done].
      by rewrite Hlist, Hiter, Hentries. }
    unfold out, get_banner_types, getOrCompute. rewrite Hmiss, Hfetch. cbn [fst snd].
    destruct (stores_after_request w (banner_types_wire language key w)
                (RespEnvelope 0 message data)) as (Hb & _).
    split; [done|]. split; [|split].
    + cbn. by rewrite trace_printed; cbn; rewrite trace_with_session.
    + cbn. by rewrite Hb.
    + intros key'. cbn. by rewrite lookup_insert_eq.
  - intros language fields Hmiss Hanswer v out.
    assert (fetch_transaction_reasons remote language w
            = (Ok v, emit (EvHttp (reasons_wire language w)) (with_session w)))
      as Hfetch.
    { unfold fetch_transaction_reasons, bind, request_webstatic, bind.
      rewrite session_run. unfold send. rewrite http_count_with_session. cbn [fst snd].
      change {| req_method := "GET";
                req_url := url_join Const.WEBSTATIC_URL
                             (reasons_base +:+ "m02251421001311/m02251421001311-"
                              +:+ language +:+ ".json");
                req_headers := <["user-agent" := Const.USER_AGENT]> (default ∅ None);
                req_kwargs := no_kwargs;
                req_cookies := cookie_jar (session_of w) |}
        with (reasons_wire language w).
      by rewrite Hanswer. }
    unfold out, _get_transaction_reasons, getOrCompute. rewrite Hmiss, Hfetch.
    cbn [fst snd].
    destruct (stores_after_request w (reasons_wire language w)
                (RespStatic (JObj fields))) as (_ & _ & _ & Hr).
    split; [done|]. split; [|split].
    + cbn. by rewrite trace_with_session.
    + by rewrite Hr.
    + cbn. by rewrite lookup_insert_eq.
Qed.
End PermanentCache.

(** [_get_transaction_reasons] keeps the keys with the prefix
    [selfinquiry_general_reason_], under their last segment. *)
Example transaction_reasons_example :
  let out := _get_transaction_reasons (Ext:=Demo.externals)
               (Demo.scripted [Demo.reasons_answer "Daily commission"] Demo.refused_answer)
               "en" (Demo.world_of Demo.client0) in
  (∃ v, out.1 = Ok v ∧ v !! "12" = Some (JStr "Daily commission") ∧ size v = 1)
  ∧ http_count out.2 = 1.
Proof. cbv zeta. split; [|by vm_compute]. eexists. by vm_compute. Qed.

(** Witness of [permanent_cache_by_language]: for both catalogs the remote
    would answer the second call differently; the second call for the
    banner types passes no access key. *)
Lemma permanent_cache_by_language_witness :
  let w := Demo.world_of Demo.client0 in
  let remote := Demo.scripted [Demo.banner_answer "Character Event Wish";
                               Demo.banner_answer "renamed"] Demo.refused_answer in
  let first := get_banner_types (Ext:=Demo.externals) remote None (Some "key-1") w in
  let remote' := Demo.scripted [Demo.reasons_answer "Daily commission";
                                Demo.reasons_answer "renamed"] Demo.refused_answer in
  let first' := _get_transaction_reasons (Ext:=Demo.externals) remote' "en" w in
  (∃ v, first.1 = Ok v
        ∧ v !! 301%Z = Some (JStr "Character Event Wish")
        ∧ get_banner_types (Ext:=Demo.externals) remote None None first.2 = (Ok v, first.2)
        ∧ http_count first.2 = 1)
  ∧ (∃ v, first'.1 = Ok v
          ∧ v !! "12" = Some (JStr "Daily commission")
          ∧ _get_transaction_reasons (Ext:=Demo.externals) remote' "en" first'.2
            = (Ok v, first'.2)
          ∧ http_count first'.2 = 1).
Proof.
  cbv zeta. split.
  - eexists. split; [vm_compute; reflexivity|].
    split; [vm_compute; reflexivity|].
    destruct (permanent_cache_by_language (Ext:=Demo.externals)
                (Demo.scripted [Demo.banner_answer "Character Event Wish";
                                Demo.banner_answer "renamed"] Demo.refused_answer)
                (Demo.world_of Demo.client0)
                (get_banner_types (Ext:=Demo.externals)
                   (Demo.scripted [Demo.banner_answer "Character Event Wish";
                                   Demo.banner_answer "renamed"] Demo.refused_answer)
                   None (Some "key-1") (Demo.world_of Demo.client0)).2) as [Hbanner _].
    destruct (Hbanner None (Some "key-1") None _ ltac:(vm_compute; reflexivity))
      as [Hsame Hcount].
    split; [exact Hsame|]. by destruct (Hcount eq_refl).
  - destruct (permanent_cache_by_language (Ext:=Demo.externals)
                (Demo.scripted [Demo.reasons_answer "Daily commission";
                                Demo.reasons_answer "renamed"] Demo.refused_answer)
                (Demo.world_of Demo.client0) (Demo.world_of Demo.client0))
      as (_ & _ & _ & _ & _ & Hreasons).
    destruct (Hreasons "en" _ eq_refl eq_refl) as (Hfirst & Htrace & _ & Hagain).
    eexists. split; [exact Hfirst|]. split; [vm_compute; reflexivity|].
    split; [exact Hagain|]. by rewrite (http_count_trace _ _ _ Htrace).
Defined.

(** ** Redeeming a code *)

Section Redeem.
Context `{Ext : Externals}.
Variable remote : Remote.



Lemma request_view url method headers kwargs (w : World) :
  jar_of (request remote url method headers kwargs w).2 = jar_of w
  ∧ self_lang (request remote url method headers kwargs w).2 = self_lang w.
Proof.
  rewrite request_run. cbv zeta.
  assert (∀ sent r w', jar_of (printed sent r w') = jar_of w'
                       ∧ self_lang (printed sent r w') = self_lang w') as Hprinted.
  { intros sent r w'. unfold printed. by destruct (debug (self w')). }
  assert (∀ e, jar_of (emit e (with_session w)) = jar_of w
               ∧ self_lang (emit e (with_session w)) = self_lang w) as Hemit.
  { intros e. unfold jar_of, self_lang, session_of, with_session.
    destruct (_session (self w)) eqn:E; cbn; by rewrite ?E. }
  destruct (remote _ _); cbn [fst snd];
    rewrite ?(proj1 (Hprinted _ _ _)), ?(proj2 (Hprinted _ _ _)); apply Hemit.
Qed.







End Redeem.




(** ** The merge paginator *)

Section MergeFacts.
Import Merge.

Lemma newer_true (x y : FeedItem) : newer y x = true → (timestamp x <= timestamp y)%Z.
Proof. unfold newer. intros H. destruct (timestamp x <? timestamp y)%Z eqn:E; lia. Qed.

Lemma newer_false (x y : FeedItem) : newer y x = false → (timestamp y <= timestamp x)%Z.
Proof. unfold newer. intros H. destruct (timestamp x <? timestamp y)%Z eqn:E; [done|lia]. Qed.

Lemma newer_spec (x y : FeedItem) :
  newer x y = true
  ↔ (timestamp y < timestamp x
     ∨ (timestamp x = timestamp y ∧ item_id y < item_id x))%Z.
Proof.
  unfold newer.
  destruct (Z.ltb_spec (timestamp y) (timestamp x)),
    (Z.eqb_spec (timestamp x) (timestamp y)),
    (Z.ltb_spec (item_id y) (item_id x)); cbn; split; (done || lia).
Qed.

Lemma newer_spec_false (x y : FeedItem) :
  newer x y = false
  ↔ ¬ (timestamp y < timestamp x
       ∨ (timestamp x = timestamp y ∧ item_id y < item_id x))%Z.
Proof. rewrite <- newer_spec. by destruct (newer x y). Qed.

(** *** The merge on whole feeds is ordered *)

Lemma flat_select_None (feeds : list (list FeedItem)) :
  flat_select feeds = None → concat feeds = [].
Proof.
  induction feeds as [|f rest IH]; [done|]. cbn.
  destruct f as [|x f], (flat_select rest) as [[i y]|];
    first [done | by destruct (newer y x) | by intros _; apply IH].
Qed.

(** The selected head is at least as recent as every item of every feed. *)
Lemma flat_select_max (feeds : list (list FeedItem)) :
  Forall non_increasing feeds →
  ∀ i x, flat_select feeds = Some (i, x) →
         Forall (fun y => (timestamp y <= timestamp x)%Z) (concat feeds).
Proof.
  induction 1 as [|f rest Hf Hrest IH]; intros i x; [done|]. cbn.
  destruct f as [|h f], (flat_select rest) as [[j y]|] eqn:Hsel.
  - intros [= <- <-]. by apply (IH j).
  - done.
  - apply StronglySorted_inv in Hf as [_ Hh].
    specialize (IH j y eq_refl).
    destruct (newer y h) eqn:Hnew; intros [= <- <-].
    + apply newer_true in Hnew. apply Forall_cons. split; [done|].
      apply Forall_app. split; [|done].
      eapply Forall_impl; [exact Hh|]. cbn. intros; lia.
    + apply newer_false in Hnew. apply Forall_cons. split; [lia|].
      apply Forall_app. split; [done|].
      eapply Forall_impl; [exact IH|]. cbn. intros; lia.
  - intros [= <- <-]. apply StronglySorted_inv in Hf as [_ Hh].
    rewrite (flat_select_None rest Hsel), app_nil_r.
    apply Forall_cons. split; [lia|done].
Qed.

Lemma flat_pop_sorted (i : nat) (feeds : list (list FeedItem)) :
  Forall non_increasing feeds → Forall non_increasing (flat_pop i feeds).
Proof.
  intros H. revert i. induction H as [|f rest Hf Hrest IH]; intros i; [by destruct i|].
  destruct i as [|i]; cbn.
  - apply Forall_cons. split; [|done].
    destruct f as [|x f]; [done|]. by apply StronglySorted_inv in Hf as [? _].
  - apply Forall_cons. split; [done|apply IH].
Qed.

Lemma flat_pop_elem (i : nat) (feeds : list (list FeedItem)) (y : FeedItem) :
  y ∈ concat (flat_pop i feeds) → y ∈ concat feeds.
Proof.
  revert i. induction feeds as [|f rest IH]; intros i; [by destruct i|].
  destruct i as [|i]; cbn; rewrite !elem_of_app.
  - intros [Hy|Hy]; [left|by right]. destruct f; [done|]. by apply list_elem_of_further.
  - intros [Hy|Hy]; [by left|right]. by apply (IH i).
Qed.

Lemma flat_merge_elem (fuel : nat) :
  ∀ feeds lim stop y, y ∈ flat_merge fuel feeds lim stop → y ∈ concat feeds.
Proof.
  induction fuel as [|fuel IH]; intros feeds lim stop y; cbn; [by intros ?%elem_of_nil|].
  destruct (limit_reached lim); [by intros ?%elem_of_nil|].
  destruct (flat_select feeds) as [[i x]|] eqn:Hsel; [|by intros ?%elem_of_nil].
  destruct (item_id x <=? stop)%Z; [by intros ?%elem_of_nil|].
  intros [->|Hy]%elem_of_cons.
  - clear IH. revert i Hsel. induction feeds as [|f rest IHf]; intros i; [done|]. cbn.
    destruct f as [|h f], (flat_select rest) as [[j z]|] eqn:Hrest; try done.
    + intros [= <- <-]. by apply (IHf j).
    + destruct (newer z h); intros [= <- <-].
      * apply elem_of_app. right. by apply (IHf j).
      * apply list_elem_of_here.
    + intros [= <- <-]. apply list_elem_of_here.
  - eapply flat_pop_elem, IH, Hy.
Qed.

Lemma flat_merge_sorted (fuel : nat) :
  ∀ feeds lim stop, Forall non_increasing feeds →
                    non_increasing (flat_merge fuel feeds lim stop).
Proof.
  induction fuel as [|fuel IH]; intros feeds lim stop Hsorted; cbn; [constructor|].
  destruct (limit_reached lim); [constructor|].
  destruct (flat_select feeds) as [[i x]|] eqn:Hsel; [|constructor].
  destruct (item_id x <=? stop)%Z; [constructor|].
  apply SSorted_cons; [by apply IH, flat_pop_sorted|].
  apply Forall_forall. intros y Hy.
  pose proof (flat_select_max feeds Hsorted i x Hsel) as Hmax.
  rewrite Forall_forall in Hmax. apply Hmax.
  eapply flat_pop_elem, flat_merge_elem, Hy.
Qed.

(** *** The paginated merge is the merge on whole feeds *)

(** Refilling is a loop of [nextPage()] calls: it stops at an exhausted
    paginator or at the first page that is not empty. *)
Lemma refill_from_nextPage (p : CursorPaginator) :
  refill_from (pending p) =
    if exhausted p then {| buffer := []; source := p |}
    else match nextPage p with
         | ([], p') => refill_from (pending p')
         | (page, p') => {| buffer := page; source := p' |}
         end.
Proof.
  destruct p as [pages]. unfold exhausted, nextPage. cbn.
  destruct pages as [|page rest]; [done|]. by destruct page.
Qed.

Lemma feed_refill_from (pages : list (list FeedItem)) :
  feed (refill_from pages) = concat pages ∧ ready (refill_from pages).
Proof.
  induction pages as [|page rest IH]; [done|].
  destruct page as [|x page]; [done|]. cbn. split; done.
Qed.

Lemma feed_refill (s : Slot) : feed (refill s) = feed s ∧ ready (refill s).
Proof.
  unfold refill. destruct s as [b [pages]]. cbn.
  destruct b as [|x b]; [|done].
  unfold exhausted. cbn. destruct pages as [|page rest]; [done|].
  apply (feed_refill_from (page :: rest)).
Qed.

Lemma feed_pop (s : Slot) : ready s → feed (pop s) = tail (feed s) ∧ ready (pop s).
Proof.
  intros Hready. unfold pop.
  destruct (feed_refill {| buffer := tail (buffer s); source := source s |}) as [-> Hr].
  split; [|done]. unfold feed. cbn.
  destruct (buffer s) as [|x b] eqn:Hb; [|done].
  by rewrite (Hready Hb).
Qed.

Lemma select_flat (slots : list Slot) :
  Forall ready slots → select slots = flat_select (map feed slots).
Proof.
  induction 1 as [|s rest Hs Hrest IH]; [done|]. cbn. rewrite IH.
  change (feed s) with (buffer s ++ concat (pending (source s))).
  destruct (buffer s) as [|x b] eqn:Hb; [|done].
  by rewrite (Hs Hb).
Qed.

Lemma pop_at_flat (i : nat) (slots : list Slot) :
  Forall ready slots →
  map feed (pop_at i slots) = flat_pop i (map feed slots) ∧ Forall ready (pop_at i slots).
Proof.
  intros H. revert i. induction H as [|s rest Hs Hrest IH]; intros i; [by destruct i|].
  destruct i as [|i]; cbn.
  - destruct (feed_pop s Hs) as [-> Hr]. split; [done|]. by apply Forall_cons.
  - destruct (IH i) as [-> Hr]. split; [done|]. by apply Forall_cons.
Qed.

Lemma collect_fuel_flat (fuel : nat) :
  ∀ m, Forall ready (slots m) →
       collect_fuel fuel m = flat_merge fuel (map feed (slots m)) (limit m) (stopId m).
Proof.
  induction fuel as [|fuel IH]; intros m Hready; [done|]. cbn. unfold next.
  destruct (limit_reached (limit m)); [done|].
  rewrite select_flat by done.
  destruct (flat_select _) as [[i x]|]; [|done].
  destruct (item_id x <=? stopId m)%Z; [done|].
  destruct (pop_at_flat i (slots m) Hready) as [Hfeed Hr].
  rewrite IH by done. cbn. by rewrite Hfeed.
Qed.

(** *** Enough fuel *)

Lemma flat_select_pop_length (feeds : list (list FeedItem)) :
  ∀ i x, flat_select feeds = Some (i, x) →
         length (concat feeds) = S (length (concat (flat_pop i feeds))).
Proof.
  induction feeds as [|f rest IH]; intros i x; [done|]. cbn.
  destruct f as [|h f], (flat_select rest) as [[j y]|] eqn:Hsel; try done.
  - intros [= <- <-]. cbn. by apply (IH j y).
  - destruct (newer y h); intros [= <- <-]; cbn; [|done].
    rewrite !length_app. rewrite (IH j y eq_refl). lia.
  - by intros [= <- <-].
Qed.

Lemma flat_merge_enough (fuel : nat) :
  ∀ fuel' feeds lim stop,
    length (concat feeds) ≤ fuel → length (concat feeds) ≤ fuel' →
    flat_merge fuel feeds lim stop = flat_merge fuel' feeds lim stop.
Proof.
  induction fuel as [|fuel IH]; intros fuel' feeds lim stop Hfuel Hfuel'.
  - destruct fuel' as [|fuel']; [done|]. cbn.
    destruct (limit_reached lim); [done|].
    destruct (flat_select feeds) as [[i x]|] eqn:Hsel; [|done].
    apply flat_select_pop_length in Hsel. lia.
  - destruct fuel' as [|fuel']; cbn.
    + destruct (limit_reached lim); [done|].
      destruct (flat_select feeds) as [[i x]|] eqn:Hsel; [|done].
      apply flat_select_pop_length in Hsel. lia.
    + destruct (limit_reached lim); [done|].
      destruct (flat_select feeds) as [[i x]|] eqn:Hsel; [|done].
      destruct (item_id x <=? stop)%Z; [done|].
      apply flat_select_pop_length in Hsel. f_equal. apply IH; lia.
Qed.

Lemma create_ready (cats : list CursorPaginator) (lim : option nat) (stop : Z) :
  Forall ready (slots (create cats lim stop))
  ∧ map feed (slots (create cats lim stop)) = map (fun p => concat (pending p)) cats.
Proof.
  unfold create. cbn [slots]. induction cats as [|p cats [IH1 IH2]]; [done|].
  cbn [map]. destruct (feed_refill {| buffer := []; source := p |}) as [Hfeed Hr].
  split; [by apply Forall_cons|]. by rewrite Hfeed, IH2.
Qed.

(** The paginated merge produces what the merge of the whole feeds does. *)
Lemma collect_flat (cats : list CursorPaginator) (lim : option nat) (stop : Z) :
  collect (create cats lim stop)
  = flat_merge (length (concat (map (fun p => concat (pending p)) cats)))
      (map (fun p => concat (pending p)) cats) lim stop.
Proof.
  unfold collect, remaining.
  destruct (create_ready cats lim stop) as [Hr Hfeed].
  rewrite collect_fuel_flat by done. by rewrite Hfeed.
Qed.

(** *** The tie-break *)

(** The chosen head is not beaten by any head, and it beats every head of
    a category that comes before its own. *)
Lemma select_tie_break (slots : list Slot) :
  ∀ i x, select slots = Some (i, x) →
    (∃ s, slots !! i = Some s ∧ head (buffer s) = Some x)
    ∧ ∀ j s y, slots !! j = Some s → head (buffer s) = Some y →
               newer y x = false ∧ (j < i → newer x y = true).
Proof.
  induction slots as [|s0 rest IH]; intros i x; [done|]. cbn.
  destruct (buffer s0) as [|h b] eqn:Hb, (select rest) as [[k z]|] eqn:Hsel; try done.
  - intros [= <- <-]. destruct (IH k z eq_refl) as [Hat Hbest].
    split; [done|]. intros [|j] s y; cbn.
    + intros [= <-]. by rewrite Hb.
    + intros Hs Hy. destruct (Hbest j s y Hs Hy) as [Hge Hlt].
      split; [done|]. intros ?. apply Hlt. lia.
  - destruct (IH k z eq_refl) as [Hat Hbest].
    destruct (newer z h) eqn:Hnew; intros [= <- <-].
    + split; [done|]. intros [|j] s y; cbn.
      * intros [= <-]. rewrite Hb. intros [= <-]. split; [|done].
        apply newer_spec in Hnew. apply newer_spec_false. lia.
      * intros Hs Hy. destruct (Hbest j s y Hs Hy) as [Hge Hlt].
        split; [done|]. intros ?. apply Hlt. lia.
    + split; [exists s0; by rewrite Hb|]. intros [|j] s y; cbn.
      * intros [= <-]. rewrite Hb. intros [= <-]. split; [|lia].
        apply newer_spec_false. lia.
      * intros Hs Hy. destruct (Hbest j s y Hs Hy) as [Hge _].
        split; [|lia].
        apply newer_spec_false in Hge, Hnew. apply newer_spec_false. lia.
  - intros [= <- <-]. split; [exists s0; by rewrite Hb|].
    intros [|j] s y; cbn.
    + intros [= <-]. rewrite Hb. intros [= <-]. split; [|lia].
      apply newer_spec_false. lia.
    + intros Hs Hy. exfalso. clear IH.
      revert j Hs. induction rest as [|s1 rest IHr]; intros j; [done|].
      cbn in Hsel. destruct (buffer s1) as [|h1 b1] eqn:Hb1,
        (select rest) as [[k z]|] eqn:Hsel'; try done.
      * destruct j as [|j]; cbn.
        -- intros [= <-]. by rewrite Hb1 in Hy.
        -- by apply IHr.
      * by destruct (newer z h1).
Qed.

(** Two categories with one item each at the same timestamp: the larger id
    comes first, and on equal ids the category given first. *)
Lemma tie_of_two (a b : FeedItem) (stop : Z) :
  timestamp a = timestamp b → (stop < item_id a)%Z → (stop < item_id b)%Z →
  collect (create [ {| pending := [[a]] |}; {| pending := [[b]] |} ] None stop)
  = if (item_id a <? item_id b)%Z then [b; a] else [a; b].
Proof.
  intros Htime Ha Hb. rewrite collect_flat. cbn.
  assert (newer b a = (item_id a <? item_id b)%Z) as ->.
  { unfold newer. rewrite Htime, Z.ltb_irrefl, Z.eqb_refl. done. }
  destruct (Z.ltb_spec (item_id a) (item_id b)); cbn.
  - destruct (Z.leb_spec (item_id b) stop); [lia|]. cbn.
    destruct (Z.leb_spec (item_id a) stop); [lia|]. done.
  - destruct (Z.leb_spec (item_id a) stop); [lia|]. cbn.
    destruct (Z.leb_spec (item_id b) stop); [lia|]. done.
Qed.

(** C1.  The merge paginator over categories whose feeds are non-increasing
    in timestamp produces a sequence that is non-increasing in timestamp.
    The sequence is complete after as many steps as there are items, and it
    depends on the feeds and the order of the categories only, not on how
    the feeds arrive in pages.  A tie is broken the same way every time: the
    chosen head is beaten by no other head and beats every head of a
    category placed before its own; so of two items with the same timestamp
    the larger id comes first, and on equal ids the category given first.
    Feeds with the timestamps 10, 8, 5 and 9, 7, 6 merge into 10, 9, 8, 7, 6,
    5, whatever their pages. *)
Theorem merged_order (cats : list CursorPaginator) (lim : option nat) (stop : Z) :
  (Forall (fun p => non_increasing (concat (pending p))) cats →
   non_increasing (collect (create cats lim stop)))
  ∧ (∀ fuel, remaining (create cats lim stop) ≤ fuel →
             collect_fuel fuel (create cats lim stop) = collect (create cats lim stop))
  ∧ (∀ cats', map (fun p => concat (pending p)) cats'
              = map (fun p => concat (pending p)) cats →
              collect (create cats' lim stop) = collect (create cats lim stop))
  ∧ (∀ (m : MergePaginator) i x, select (slots m) = Some (i, x) →
       ∀ j s y, slots m !! j = Some s → head (buffer s) = Some y →
                newer y x = false ∧ (j < i → newer x y = true))
  ∧ (∀ a b : FeedItem,
       timestamp a = timestamp b → (stop < item_id a)%Z → (stop < item_id b)%Z →
       collect (create [ {| pending := [[a]] |}; {| pending := [[b]] |} ] None stop)
       = if (item_id a <? item_id b)%Z then [b; a] else [a; b])
  ∧ (∀ pagesA pagesB,
       concat pagesA = of_times 0 [10; 8; 5]%Z →
       concat pagesB = of_times 1 [9; 7; 6]%Z →
       map timestamp
         (collect (create [ {| pending := pagesA |}; {| pending := pagesB |} ] None 0))
       = [10; 9; 8; 7; 6; 5]%Z).
Proof.
  split; [|split; [|split; [|split; [|split]]]].
  - intros Hsorted. rewrite collect_flat. apply flat_merge_sorted.
    by apply Forall_fmap.
  - intros fuel Hfuel. unfold collect.
    destruct (create_ready cats lim stop) as [Hr Hfeed].
    rewrite !collect_fuel_flat by done. by apply flat_merge_enough.
  - intros cats' Hsame. by rewrite !collect_flat, Hsame.
  - intros m i x Hsel. by apply select_tie_break.
  - intros a b. apply tie_of_two.
  - intros pagesA pagesB HA HB. rewrite collect_flat. cbn [map pending].
    rewrite HA, HB. by vm_compute.
Qed.
End MergeFacts.

(** Witness of [merged_order]: the feed of the first category comes in two
    pages, the second in one, and one timestamp occurs in both. *)
Lemma merged_order_witness :
  Merge.non_increasing
    (Merge.collect
       (Merge.create
          [ {| Merge.pending := [Merge.of_times 0 [10; 8]%Z; Merge.of_times 0 [5]%Z] |};
            {| Merge.pending := [Merge.of_times 1 [9; 8; 6]%Z] |} ] None 0)).
Proof.
  apply (proj1 (merged_order
                  [ {| Merge.pending := [Merge.of_times 0 [10; 8]%Z; Merge.of_times 0 [5]%Z] |};
                    {| Merge.pending := [Merge.of_times 1 [9; 8; 6]%Z] |} ] None 0)).
  repeat constructor; cbn; lia.
Defined.

(** * Theorems on the rest of the client *)

(** ** Cookies *)

Lemma cookies_dict_lookup (jar : list Morsel) (k : string) :
  foldl (fun d cookie => <[key cookie := value cookie]> d) (∅ : gmap string string) jar !! k
  = value <$> last (cookies_named k jar).
Proof.
  induction jar as [|cookie jar IH] using rev_ind; [done|].
  rewrite foldl_app. cbn. unfold cookies_named. rewrite List.filter_app. cbn.
  destruct (bool_decide_reflect (key cookie = k)) as [Hk|Hk].
  - rewrite last_snoc. subst k. by rewrite lookup_insert_eq.
  - rewrite app_nil_r. by rewrite lookup_insert_ne.
Qed.

(** X1.  The mapping the [cookies] property returns gives, for every key,
    the value of the last cookie of the jar with that key, and has no entry
    for a key no cookie carries. *)
Theorem cookies_last_wins `{Ext : Externals} (w : World) :
  ∃ d, (cookies w).1 = Ok (Some d)
       ∧ ∀ k, d !! k = value <$> last (cookies_named k (jar_of w)).
Proof.
  rewrite cookies_run. eexists. split; [done|]. intros k. apply cookies_dict_lookup.
Qed.

(** ** Raw requests *)

Section RawRequests.
Context `{Ext : Externals}.
Variable remote : Remote.

Lemma wire_same_jar url method headers kwargs (w w' : World) :
  jar_of w' = jar_of w → wire url method headers kwargs w' = wire url method headers kwargs w.
Proof. unfold wire, jar_of. by intros ->. Qed.

Lemma jar_of_with_session (w : World) : jar_of (with_session w) = jar_of w.
Proof. unfold jar_of. by rewrite session_of_with_session. Qed.

Lemma self_lang_with_session (w : World) : self_lang (with_session w) = self_lang w.
Proof. unfold self_lang, with_session. by destruct (_session (self w)). Qed.

Lemma stdout_with_session (w : World) : stdout (with_session w) = stdout w.
Proof. unfold with_session. by destruct (_session (self w)). Qed.

Lemma request_result url method headers kwargs (w : World) :
  (request remote url method headers kwargs w).1
  = envelope_result (remote (http_count w) (wire url method headers kwargs w)).
Proof. rewrite request_run. cbv zeta. by destruct (remote _ _). Qed.

(** X2.  A call of [request] puts exactly one request on the wire, with the
    method, the URL and the keyword arguments of the caller and the cookies
    of the jar; its [user-agent] header is the one of the client whatever
    the caller passed, and every other header is the caller's. *)
Theorem request_user_agent (url method : string) (headers : option (gmap string string))
    (kwargs : Kwargs) (w : World) :
  ∃ r, trace (request remote url method headers kwargs w).2 = trace w ++ [EvHttp r]
       ∧ req_method r = method ∧ req_url r = url ∧ req_kwargs r = kwargs
       ∧ req_cookies r = jar_of w
       ∧ req_headers r !! "user-agent" = Some Const.USER_AGENT
       ∧ ∀ h, h ≠ "user-agent" → req_headers r !! h = default ∅ headers !! h.
Proof.
  exists (wire url method headers kwargs w). split; [apply request_trace|].
  repeat split; cbn.
  - by rewrite lookup_insert_eq.
  - intros h Hh. by rewrite lookup_insert_ne.
Qed.

(** X3.  In debug mode [request] prints one line exactly when the remote
    answered, also when the answer is an error of the API: the method and
    the URL that the response object reports for the request sent, not the
    arguments of the caller.  A transport failure prints nothing, and so
    does every call without debug mode. *)
Theorem request_debug_print (url method : string) (headers : option (gmap string string))
    (kwargs : Kwargs) (w : World) :
  let sent := wire url method headers kwargs w in
  let r := remote (http_count w) sent in
  stdout (request remote url method headers kwargs w).2
  = stdout w ++
    (if debug (self w)
     then match r with
          | RespFail _ => []
          | _ => [(response_method sent r, response_url sent r)]
          end
     else []).
Proof.
  cbv zeta. rewrite request_run. cbv zeta.
  assert (debug (self (emit (EvHttp (wire url method headers kwargs w)) (with_session w)))
          = debug (self w)) as Hdebug.
  { unfold with_session. by destruct (_session (self w)). }
  destruct (remote _ _); cbn [fst snd]; unfold printed; rewrite ?Hdebug;
    destruct (debug (self w)); cbn; rewrite ?stdout_with_session, ?app_nil_r; done.
Qed.

(** X4.  [request_webstatic] sends one GET request to the URL joined to the
    static base and returns the body as it is: an envelope is not opened, so
    a non-zero retcode comes back as data instead of being raised; only a
    transport failure raises. *)
Theorem request_webstatic_body (url : string) (headers : option (gmap string string))
    (kwargs : Kwargs) (w : World) :
  let r := wire (url_join Const.WEBSTATIC_URL url) "GET" headers kwargs w in
  let out := request_webstatic remote url headers kwargs w in
  trace out.2 = trace w ++ [EvHttp r]
  ∧ stdout out.2 = stdout w
  ∧ out.1 = match remote (http_count w) r with
            | RespFail msg => Raise (ClientError msg)
            | RespEnvelope retcode message data =>
                Ok (JObj [("retcode", JInt retcode); ("message", JStr message);
                          ("data", data)])
            | RespStatic body => Ok body
            end.
Proof.
  cbv zeta. unfold request_webstatic, bind. rewrite session_run. unfold send.
  rewrite http_count_with_session. cbn [fst snd].
  fold (wire (url_join Const.WEBSTATIC_URL url) "GET" headers kwargs w).
  destruct (remote _ _); cbn; rewrite trace_with_session, stdout_with_session; done.
Qed.
End RawRequests.

(** ** The session cache *)

Section GameRecord.
Context `{Ext : Externals}.
Variable remote : Remote.

Lemma request_after_session url method headers kwargs (w : World) :
  trace (request remote url method headers kwargs (with_session w)).2
    = trace w ++ [EvHttp (wire url method headers kwargs w)]
  ∧ (request remote url method headers kwargs (with_session w)).1
    = envelope_result (remote (http_count w) (wire url method headers kwargs w)).
Proof.
  rewrite request_trace, request_result, trace_with_session, http_count_with_session.
  by rewrite (wire_same_jar _ _ _ _ w (with_session w)) by apply jar_of_with_session.
Qed.

Lemma store_view (k : option CacheKey) (data : json) (w : World) :
  trace (store k data w).2 = trace w ∧ jar_of (store k data w).2 = jar_of w
  ∧ self_lang (store k data w).2 = self_lang w.
Proof.
  rewrite store_run. cbn [snd]. destruct (tuple_truthy k); [|done].
  by destruct k, (cache (self w)).
Qed.

(** A call served from the cache changes nothing. *)
Lemma request_game_record_hit endpoint method chinese language tuple kwargs (w : World) v :
  cached_value (cache (self w)) (effective_key tuple language (self_lang w)) = Some v →
  request_game_record remote endpoint method chinese language tuple kwargs w = (Ok v, w).
Proof. intros Hhit. rewrite request_game_record_run. cbv zeta. by rewrite Hhit. Qed.

(** A call not served from the cache sends its request and gives what
    [request] makes of the answer. *)
Lemma request_game_record_miss endpoint method chinese language tuple kwargs (w : World) :
  cached_value (cache (self w)) (effective_key tuple language (self_lang w)) = None →
  let out := request_game_record remote endpoint method chinese language tuple kwargs w in
  let r := game_record_wire endpoint method chinese language kwargs w in
  trace out.2 = trace w ++ [EvHttp r]
  ∧ out.1 = envelope_result (remote (http_count w) r).
Proof.
  intros Hmiss. cbv zeta. rewrite request_game_record_run. cbv zeta. rewrite Hmiss.
  unfold game_record_wire.
  match goal with
  | |- context [request remote ?u ?m ?h ?kw (with_session w)] =>
      destruct (request_after_session u m h kw w) as [Ht Hr];
      destruct (request remote u m h kw (with_session w)) as [[data|e] w2]
  end; cbn [fst snd] in *; [|done].
  split; [|done]. by destruct (store_view (effective_key tuple language (self_lang w))
                                 data w2) as (-> & _).
Qed.

Lemma request_game_record_view endpoint method chinese language tuple kwargs (w : World) :
  let out := request_game_record remote endpoint method chinese language tuple kwargs w in
  jar_of out.2 = jar_of w ∧ self_lang out.2 = self_lang w.
Proof.
  cbv zeta. rewrite request_game_record_run. cbv zeta.
  destruct (cached_value _ _); [done|].
  match goal with
  | |- context [request remote ?u ?m ?h ?kw (with_session w)] =>
      destruct (request_view remote u m h kw (with_session w)) as [Hj Hl];
      destruct (request remote u m h kw (with_session w)) as [[data|e] w2]
  end; cbn [fst snd] in *;
    rewrite jar_of_with_session in Hj; rewrite self_lang_with_session in Hl; [|done].
  destruct (store_view (effective_key tuple language (self_lang w)) data w2)
    as (_ & -> & ->). done.
Qed.

(** After a call with a non-empty tuple on a client with a cache mapping
    returned a value, the value is in the cache under the effective key and
    every other entry is as before. *)
Lemma request_game_record_stored (endpoint method : string) (chinese : bool)
    (language : option string) (t : CacheKey) (kwargs : Kwargs)
    (w w1 : World) (c : gmap CacheKey json) (v : json) :
  t ≠ [] → cache (self w) = Some c →
  request_game_record remote endpoint method chinese language (Some t) kwargs w = (Ok v, w1) →
  ∃ c1, cache (self w1) = Some c1
        ∧ c1 !! (t ++ [KStr (str_or language (self_lang w))]) = Some v
        ∧ (∀ k, k ≠ t ++ [KStr (str_or language (self_lang w))] → c1 !! k = c !! k)
        ∧ (c !! (t ++ [KStr (str_or language (self_lang w))]) = None →
           c1 = <[t ++ [KStr (str_or language (self_lang w))] := v]> c)
        ∧ (∀ old, c !! (t ++ [KStr (str_or language (self_lang w))]) = Some old →
                  v = old ∧ w1 = w).
Proof.
  intros Ht Hc Hrun.
  pose proof (request_game_record_cache remote endpoint method chinese language
                (Some t) kwargs w) as Hcache.
  cbv zeta in Hcache. rewrite Hrun in Hcache. cbn [fst snd] in Hcache.
  rewrite effective_key_nonempty, Hc in Hcache by done.
  destruct (cached_value (Some c) _) as [stored|] eqn:Hold.
  - exists c. split; [done|].
    rewrite request_game_record_run in Hrun. cbv zeta in Hrun.
    rewrite effective_key_nonempty, Hc, Hold in Hrun by done.
    injection Hrun as <- <-.
    apply cached_value_sound in Hold as (c0 & k0 & [= <-] & [= <-] & Hlook).
    split; [done|]. split; [done|]. split.
    + intros Hnone. by rewrite Hnone in Hlook.
    + intros old Hsome. rewrite Hsome in Hlook. by injection Hlook as ->.
  - rewrite effective_key_truthy in Hcache by done.
    eexists. split; [exact Hcache|]. split; [by rewrite lookup_insert_eq|].
    split; [|split; [done|]].
    + intros k Hk. by rewrite lookup_insert_ne.
    + intros old Hsome. unfold cached_value in Hold.
      assert (tuple_truthy (Some (t ++ [KStr (str_or language (self_lang w))])) = true)
        as Htruthy by by destruct t.
      rewrite Htruthy in Hold. cbn in Hold.
      assert (size c ≠ 0) as Hsize.
      { intros Hz%map_size_empty_iff. by rewrite Hz, lookup_empty in Hsome. }
      destruct (size c) as [|n] eqn:Hn; [done|]. cbn in Hold.
      by rewrite Hsome in Hold.
Qed.

(** A key that is absent is a miss, whatever else the mapping holds. *)
Lemma cached_value_miss (c : gmap CacheKey json) (k : CacheKey) :
  c !! k = None → cached_value (Some c) (Some k) = None.
Proof.
  intros Hnone. destruct (cached_value (Some c) (Some k)) as [v|] eqn:Hv; [|done].
  apply cached_value_sound in Hv as (c0 & k0 & [= <-] & [= <-] & Hlook).
  by rewrite Hnone in Hlook.
Qed.

(** C5.  For a call of [request_game_record] with a non-empty cache tuple
    on a client whose cache mapping is set: the effective key is the tuple
    followed by the effective language.  When that key is present the
    stored value is returned and the world is unchanged, so no HTTP request
    is made; when it is absent the request is sent and the result is the
    one of [request], whatever the mapping holds under other keys.
    Effective keys are equal only when the tuples and the effective
    languages are, and keys that differ address entries of their own: the
    call leaves the entry of every other key as it was, and a later call
    with another key, be it the same tuple in another language, is answered
    from the entry of that key alone: returned when present, fetched when
    absent, also right after this call stored its own. *)
Theorem game_record_cache_key (endpoint method : string) (chinese : bool)
    (language : option string) (t : CacheKey) (kwargs : Kwargs)
    (w : World) (c : gmap CacheKey json) :
  t ≠ [] → cache (self w) = Some c →
  let k := t ++ [KStr (str_or language (self_lang w))] in
  let out := request_game_record remote endpoint method chinese language (Some t) kwargs w in
  let r := game_record_wire endpoint method chinese language kwargs w in
  effective_key (Some t) language (self_lang w) = Some k
  ∧ (∀ v, c !! k = Some v → out = (Ok v, w))
  ∧ (c !! k = None →
     trace out.2 = trace w ++ [EvHttp r]
     ∧ out.1 = envelope_result (remote (http_count w) r))
  ∧ (∀ t' language',
       t' ++ [KStr (str_or language' (self_lang w))] = k
       ↔ t' = t ∧ str_or language' (self_lang w) = str_or language (self_lang w))
  ∧ (∀ k', k' ≠ k → cache (self out.2) ≫= (fun c' => c' !! k') = c !! k')
  ∧ (∀ endpoint' method' chinese' language' t' kwargs',
       t' ≠ [] →
       let k' := t' ++ [KStr (str_or language' (self_lang w))] in
       let r' := game_record_wire endpoint' method' chinese' language' kwargs' out.2 in
       let out' := request_game_record remote endpoint' method' chinese' language'
                     (Some t') kwargs' out.2 in
       k' ≠ k →
       (∀ v', c !! k' = Some v' → out' = (Ok v', out.2))
       ∧ (c !! k' = None →
          trace out'.2 = trace out.2 ++ [EvHttp r']
          ∧ out'.1 = envelope_result (remote (http_count out.2) r'))).
Proof.
  intros Ht Hc k out r.
  assert (k ≠ []) as Hk by (unfold k; by destruct t).
  assert (∀ k', k' ≠ k → cache (self out.2) ≫= (fun c' => c' !! k') = c !! k') as Hother.
  { intros k' Hk'. unfold out.
    pose proof (request_game_record_cache remote endpoint method chinese language
                  (Some t) kwargs w) as Hcache.
    cbv zeta in Hcache. rewrite Hcache. clear Hcache.
    rewrite effective_key_nonempty, Hc by done. fold k.
    destruct (cached_value _ _); [done|].
    destruct (_ .1); [|done].
    assert (tuple_truthy (Some k) = true) as -> by by destruct k.
    cbn. by rewrite lookup_insert_ne. }
  split; [by apply effective_key_nonempty|]. split; [|split; [|split; [|split]]].
  - intros v Hv. unfold out. apply request_game_record_hit.
    rewrite effective_key_nonempty, Hc by done. fold k.
    by apply cached_value_hit.
  - intros Hnone. apply (request_game_record_miss endpoint method chinese language
                           (Some t) kwargs w).
    rewrite effective_key_nonempty, Hc by done. fold k.
    by apply cached_value_miss.
  - intros t' language'. unfold k. split.
    + intros [-> [= ->]]%app_inj_tail. done.
    + by intros [-> ->].
  - exact Hother.
  - intros endpoint' method' chinese' language' t' kwargs' Ht' k' r' out' Hne.
    destruct (request_game_record_view endpoint method chinese language (Some t) kwargs w)
      as [_ Hlang]. fold out in Hlang.
    assert (k' ≠ []) as Hk' by (unfold k'; by destruct t').
    assert (∃ c1, cache (self out.2) = Some c1 ∧ c1 !! k' = c !! k') as (c1 & Hc1 & Hsame).
    { specialize (Hother k' Hne).
      pose proof (request_game_record_cache remote endpoint method chinese language
                    (Some t) kwargs w) as Hcache.
      cbv zeta in Hcache. fold out in Hcache.
      rewrite effective_key_nonempty, Hc in Hcache by done. fold k in Hcache.
      assert (tuple_truthy (Some k) = true) as Htruthy by by destruct k.
      rewrite Htruthy in Hcache.
      destruct (cached_value (Some c) (Some k)), (out.1);
        rewrite Hcache in Hother |- *; eexists; (split; [done|]); exact Hother. }
    split.
    + intros v' Hv'. unfold out'. apply request_game_record_hit.
      rewrite effective_key_nonempty, Hc1, Hlang by done. fold k'.
      apply cached_value_hit; [done|]. by rewrite Hsame.
    + intros Hnone.
      apply (request_game_record_miss endpoint' method' chinese' language'
               (Some t') kwargs' out.2).
      rewrite effective_key_nonempty, Hc1, Hlang by done. fold k'.
      apply cached_value_miss. by rewrite Hsame.
Qed.



(** X6.  A client without a cache mapping never gets one: with or without a
    tuple, every call of [request_game_record] sends its request and leaves
    the cache attribute unset. *)
Theorem game_record_without_cache (endpoint method : string) (chinese : bool)
    (language : option string) (tuple : option CacheKey) (kwargs : Kwargs) (w : World) :
  cache (self w) = None →
  let out := request_game_record remote endpoint method chinese language tuple kwargs w in
  let r := game_record_wire endpoint method chinese language kwargs w in
  cache (self out.2) = None
  ∧ trace out.2 = trace w ++ [EvHttp r]
  ∧ out.1 = envelope_result (remote (http_count w) r).
Proof.
  intros Hnone. cbv zeta.
  assert (cached_value (cache (self w)) (effective_key tuple language (self_lang w)) = None)
    as Hmiss.
  { rewrite Hnone. unfold cached_value. cbn. by rewrite andb_false_r. }
  split; [|by apply request_game_record_miss].
  pose proof (request_game_record_cache remote endpoint method chinese language
                tuple kwargs w) as Hcache.
  cbv zeta in Hcache. rewrite Hcache, Hmiss, Hnone.
  destruct (_ .1); [|done]. destruct (tuple_truthy _); [|done].
  by destruct (effective_key _ _ _).
Qed.

(** X7.  The language a response is requested in is the language it is
    stored under: on a miss with a non-empty tuple the request carries the
    effective language in its [x-rpc-language] header, and the data that
    comes back is stored under the tuple followed by that same language.  An
    empty [lang] argument counts as none: the language of the client is
    used. *)
Theorem game_record_language (endpoint method : string) (chinese : bool)
    (language : option string) (t : CacheKey) (kwargs : Kwargs) (w : World)
    (c : gmap CacheKey json) :
  t ≠ [] → cache (self w) = Some c →
  let l := str_or language (self_lang w) in
  let out := request_game_record remote endpoint method chinese language (Some t) kwargs w in
  let r := game_record_wire endpoint method chinese language kwargs w in
  c !! (t ++ [KStr l]) = None →
  trace out.2 = trace w ++ [EvHttp r]
  ∧ req_headers r !! "x-rpc-language" = Some l
  ∧ (∀ data, out.1 = Ok data →
             cache (self out.2) = Some (<[t ++ [KStr l] := data]> c))
  ∧ ((language = None ∨ language = Some "") → l = self_lang w).
Proof.
  intros Ht Hc l out r Hnew.
  assert (cached_value (cache (self w)) (effective_key (Some t) language (self_lang w))
          = None) as Hmiss.
  { rewrite Hc, effective_key_nonempty by done. unfold cached_value.
    destruct (_ && _); [|done]. cbn. exact Hnew. }
  split; [by apply request_game_record_miss|]. split; [|split].
  - unfold r, game_record_wire, wire, record_headers. cbn.
    do 3 (rewrite lookup_insert_ne by done). by rewrite lookup_insert_eq.
  - intros data Hdata.
    pose proof (request_game_record_cache remote endpoint method chinese language
                  (Some t) kwargs w) as Hcache.
    cbv zeta in Hcache. fold out in Hcache. rewrite Hcache, Hmiss, Hdata.
    rewrite effective_key_nonempty, effective_key_truthy, Hc by done. done.
  - unfold l. by intros [->| ->].
Qed.
End GameRecord.

(** Witness of [game_record_cache_key]: the entry under [("user", 1, "en-us")]
    answers the call with the tuple [("user", 1)]; the same tuple asked in
    French is not answered from it, the request goes to the remote. *)
Lemma game_record_cache_key_witness :
  let w := Demo.world_of Demo.cached_client in
  let remote := Demo.scripted [] Demo.refused_answer in
  let french := request_game_record (Ext:=Demo.externals) remote
                  "game_record/genshin/api/index" "GET" false (Some "fr-fr")
                  (Some [KStr "user"; KInt 1]) no_kwargs w in
  request_game_record (Ext:=Demo.externals) remote
    "game_record/genshin/api/index" "GET" false None (Some [KStr "user"; KInt 1])
    no_kwargs w
  = (Ok (JInt 8), w)
  ∧ trace french.2
    = trace w ++ [EvHttp (game_record_wire (Ext:=Demo.externals)
                            "game_record/genshin/api/index" "GET" false (Some "fr-fr")
                            no_kwargs w)]
  ∧ french.1 = Raise (Exception "-2003 - Invalid redemption code").
Proof.
  cbv zeta. split.
  - destruct (game_record_cache_key (Ext:=Demo.externals)
                (Demo.scripted [] Demo.refused_answer)
                "game_record/genshin/api/index" "GET" false None [KStr "user"; KInt 1]
                no_kwargs (Demo.world_of Demo.cached_client) _
                ltac:(discriminate) eq_refl) as (_ & Hhit & _).
    apply Hhit. reflexivity.
  - destruct (game_record_cache_key (Ext:=Demo.externals)
                (Demo.scripted [] Demo.refused_answer)
                "game_record/genshin/api/index" "GET" false (Some "fr-fr")
                [KStr "user"; KInt 1]
                no_kwargs (Demo.world_of Demo.cached_client) _
                ltac:(discriminate) eq_refl) as (_ & _ & Hmiss & _).
    destruct (Hmiss ltac:(vm_compute; reflexivity)) as [Htrace Hresult].
    split; [exact Htrace|]. rewrite Hresult. vm_compute. reflexivity.
Defined.

(** C5 as stated fails for the empty tuple: the key [("en-us",)] is present
    with the value 7, yet the call goes to the remote. *)
Lemma game_record_empty_tuple_misses :
  let w := Demo.world_of Demo.cached_client in
  let k := [] ++ [KStr (str_or None (self_lang w))] in
  let out := request_game_record (Ext:=Demo.externals)
               (Demo.scripted [] Demo.refused_answer)
               "game_record/genshin/api/index" "GET" false None (Some [])
               no_kwargs w in
  ¬ (∀ c v, cache (self w) = Some c → c !! k = Some v →
            out.1 = Ok v ∧ trace out.2 = trace w).
Proof.
  cbv zeta. intros Hclaim.
  destruct (Hclaim _ (JInt 7) eq_refl eq_refl) as [Hret _].
  vm_compute in Hret. discriminate Hret.
Qed.


(** ** Rewards, access keys and codes *)

Section Families.
Context `{Ext : Externals}.
Variable remote : Remote.

Lemma request_daily_reward_run endpoint method chinese language kwargs (w : World) :
  request_daily_reward remote endpoint method chinese language kwargs w
  = request remote
      (url_join (if chinese then Const.CN_REWARD_URL else Const.OS_REWARD_URL) endpoint)
      method None
      {| params := Some (reward_params chinese language kwargs w);
         json_body := json_body kwargs |} (with_session w).
Proof.
  unfold request_daily_reward, bind. rewrite cookies_run.
  unfold get_lang, gets, reward_params. cbn [fst snd].
  by rewrite <- (self_lang_with_session w).
Qed.

(** What one call of [request_daily_reward] does. *)
Lemma request_daily_reward_spec endpoint method chinese language kwargs (w : World) :
  let out := request_daily_reward remote endpoint method chinese language kwargs w in
  let r := reward_wire endpoint method chinese language kwargs w in
  trace out.2 = trace w ++ [EvHttp r]
  ∧ out.1 = envelope_result (remote (http_count w) r)
  ∧ jar_of out.2 = jar_of w ∧ self_lang out.2 = self_lang w.
Proof.
  cbv zeta. rewrite request_daily_reward_run. unfold reward_wire.
  match goal with
  | |- context [request remote ?u ?m ?h ?kw (with_session w)] =>
      destruct (request_after_session remote u m h kw w) as [Ht Hr];
      destruct (request_view remote u m h kw (with_session w)) as [Hj Hl]
  end.
  rewrite jar_of_with_session in Hj. rewrite self_lang_with_session in Hl. done.
Qed.

(** X8.  [request_daily_reward] sends one request, to the reward URL of the
    region, whose parameters are the caller's with [lang] set to the
    effective language and [act_id] to the activity of the region: a [lang]
    or [act_id] of the caller is overwritten, every other parameter is kept.
    The result is what [request] makes of the answer. *)
Theorem daily_reward_params (endpoint method : string) (chinese : bool)
    (language : option string) (kwargs : Kwargs) (w : World) :
  let out := request_daily_reward remote endpoint method chinese language kwargs w in
  ∃ r p, trace out.2 = trace w ++ [EvHttp r]
         ∧ out.1 = envelope_result (remote (http_count w) r)
         ∧ req_method r = method
         ∧ req_url r = url_join (if chinese then Const.CN_REWARD_URL
                                 else Const.OS_REWARD_URL) endpoint
         ∧ params (req_kwargs r) = Some p
         ∧ p !! "lang" = Some (JStr (str_or language (self_lang w)))
         ∧ p !! "act_id" = Some (JStr (if chinese then Const.CN_ACT_ID
                                       else Const.OS_ACT_ID))
         ∧ ∀ k, k ≠ "lang" → k ≠ "act_id" → p !! k = default ∅ (params kwargs) !! k.
Proof.
  cbv zeta.
  destruct (request_daily_reward_spec endpoint method chinese language kwargs w)
    as (Ht & Hr & _).
  exists (reward_wire endpoint method chinese language kwargs w),
         (reward_params chinese language kwargs w).
  split; [done|]. split; [done|]. repeat split; unfold reward_params.
  - rewrite lookup_insert_ne by done. by rewrite lookup_insert_eq.
  - by rewrite lookup_insert_eq.
  - intros k Hl Ha. by rewrite !lookup_insert_ne.
Qed.

(** X9.  With an access key on the call or on the client,
    [request_gacha_info] and [request_transaction] send one request whose
    [authkey] parameter is the key of the call when that is not empty and
    the key of the client otherwise.  The guard looks for [None] only: an
    empty key on the call with no key on the client passes it, and the
    request goes out with a null [authkey]. *)
Theorem authkey_precedence (endpoint method : string) (language key : option string)
    (kwargs : Kwargs) (w : World) :
  ¬ (key = None ∧ authkey (self w) = None) →
  let sent := opt_json (opt_str_or key (authkey (self w))) in
  (∃ r p, trace (request_gacha_info remote endpoint method language key kwargs w).2
            = trace w ++ [EvHttp r]
          ∧ req_url r = url_join Const.GACHA_INFO_URL endpoint
          ∧ params (req_kwargs r) = Some p
          ∧ p !! "authkey" = Some sent ∧ p !! "authkey_ver" = Some (JInt 1))
  ∧ (∃ r p, trace (request_transaction remote endpoint method language key kwargs w).2
              = trace w ++ [EvHttp r]
            ∧ req_url r = url_join Const.YSULOG_URL endpoint
            ∧ params (req_kwargs r) = Some p
            ∧ p !! "authkey" = Some sent ∧ p !! "authkey_ver" = Some (JInt 1)
            ∧ p !! "sign_type" = Some (JInt 2))
  ∧ (∀ k, key = Some k → k ≠ "" → sent = JStr k)
  ∧ (key = None ∨ key = Some "" → sent = opt_json (authkey (self w)))
  ∧ (key = Some "" → authkey (self w) = None → sent = JNull).
Proof.
  intros Hkey sent.
  assert (∀ (A : Type) (x y : M A),
            match key, authkey (self w) with
            | None, None => x
            | _, _ => y
            end = y) as Hguard.
  { intros A x y. destruct key, (authkey (self w)); try done. by destruct Hkey. }
  split; [|split; [|split; [|split]]].
  - unfold request_gacha_info, bind, get_authkey, get_lang, gets. cbn [fst snd].
    rewrite Hguard. eexists _, _. split; [apply request_trace|].
    split; [done|]. split; [done|]. cbn. split.
    + rewrite lookup_insert_ne by done. by rewrite lookup_insert_eq.
    + do 2 (rewrite lookup_insert_ne by done). by rewrite lookup_insert_eq.
  - unfold request_transaction, bind, get_authkey, get_lang, gets. cbn [fst snd].
    rewrite Hguard. eexists _, _. split; [apply request_trace|].
    split; [done|]. split; [done|]. cbn. split; [|split].
    + rewrite lookup_insert_ne by done. by rewrite lookup_insert_eq.
    + do 3 (rewrite lookup_insert_ne by done). by rewrite lookup_insert_eq.
    + do 2 (rewrite lookup_insert_ne by done). by rewrite lookup_insert_eq.
  - intros k -> Hk. unfold sent, opt_str_or. by destruct (decide (k = "")).
  - unfold sent. by intros [->| ->].
  - unfold sent. by intros -> ->.
Qed.

(** X10.  [redeem_code] with a uid makes one submission at most and never
    sleeps or fetches the accounts: when the server of the uid is
    recognized, the trace grows by that one submission and the call returns
    or raises as [request] does on the answer; when it is not, the error of
    the recognition is raised and the world is unchanged. *)
Theorem redeem_code_with_uid (code : string) (uid : Z) (language : option string)
    (w : World) :
  let out := redeem_code remote code (Some uid) language w in
  let r := submission code language (jar_of w) (self_lang w) uid in
  (∀ server, recognize_server uid = Ok server →
     trace out.2 = trace w ++ [EvHttp r]
     ∧ out.1 = match envelope_result (remote (http_count w) r) with
               | Ok _ => Ok tt
               | Raise e => Raise e
               end)
  ∧ (∀ e, recognize_server uid = Raise e → out = (Raise e, w)).
Proof.
  cbv zeta. unfold redeem_code, redeem_code_for, bind, lift, get_lang, gets, submission.
  cbn [fst snd]. split.
  - intros server ->.
    match goal with
    | |- context [request remote ?u ?m ?h ?kw w] =>
        pose proof (request_trace remote u m h kw w) as Ht;
        pose proof (request_result remote u m h kw w) as Hr;
        destruct (request remote u m h kw w) as [[data|e] w2]
    end; cbn [fst snd] in *.
    + split; [exact Ht|]. unfold wire in Hr. cbn in Hr. fold (self_lang w) in Hr.
      unfold jar_of. by rewrite <- Hr.
    + split; [exact Ht|]. unfold wire in Hr. cbn in Hr. fold (self_lang w) in Hr.
      unfold jar_of. by rewrite <- Hr.
  - by intros e ->.
Qed.
End Families.

(** ** Records *)

Section RecordFacts.
Context `{Ext : Externals} `{Mod : Models} `{Blt : Builtins}.
Variable remote : Remote.

Lemma cached_value_no_tuple (sc : option (gmap CacheKey json)) (language : option string)
    (sl : string) :
  cached_value sc (effective_key None language sl) = None.
Proof. done. Qed.

Lemma game_record_wire_same endpoint method chinese language kwargs (w w' : World) :
  jar_of w' = jar_of w → self_lang w' = self_lang w →
  game_record_wire endpoint method chinese language kwargs w'
  = game_record_wire endpoint method chinese language kwargs w.
Proof.
  intros Hj Hl. unfold game_record_wire. rewrite Hl. by apply wire_same_jar.
Qed.

(** X11.  [get_recommended_users] asks for 65536 users when no limit or
    the limit 0 is given, and for the limit otherwise; the offset is 0 and
    the request is never answered from the cache. *)
Theorem recommended_users_page_size (limit : option Z) (w : World) :
  ∃ r p, trace (get_recommended_users remote limit w).2 = trace w ++ [EvHttp r]
         ∧ req_url r = record_url false "community/user/wapi/recommendActive"
         ∧ params (req_kwargs r) = Some p
         ∧ p !! "offset" = Some (JInt 0)
         ∧ (limit = None ∨ limit = Some 0%Z → p !! "page_size" = Some (JInt 65536))
         ∧ (∀ n, limit = Some n → n ≠ 0%Z → p !! "page_size" = Some (JInt n)).
Proof.
  unfold get_recommended_users, bind, lift.
  match goal with
  | |- context [request_game_record remote ?e ?m ?ch ?l None ?kw w] =>
      destruct (request_game_record_miss remote e m ch l None kw w
                  (cached_value_no_tuple _ _ _)) as [Ht _];
      exists (game_record_wire e m ch l kw w);
      destruct (request_game_record remote e m ch l None kw w) as [[data|e0] w2]
  end; cbn [fst snd] in *.
  all: eexists; split;
    [ repeat (match goal with |- context [match ?x with Ok _ => _ | Raise _ => _ end] =>
                destruct x end; cbn [fst snd]); exact Ht
    | split; [done|]; split; [done|]; cbn; split; [|split] ].
  all: try (rewrite lookup_insert_ne by done; by rewrite lookup_insert_eq).
  all: try (intros [->|[= ->]]; by rewrite lookup_insert_eq).
  all: intros n -> Hn; rewrite lookup_insert_eq; unfold page_size_of;
    by destruct (decide (n = 0%Z)).
Qed.

(** A call of [request_game_record] that misses, in a world that differs
    from [w] at most by the session the [session] property created. *)
Lemma request_game_record_miss_from endpoint method chinese language tuple kwargs
    (w w' : World) :
  w' = w ∨ w' = with_session w →
  cached_value (cache (self w)) (effective_key tuple language (self_lang w)) = None →
  let out := request_game_record remote endpoint method chinese language tuple kwargs w' in
  let r := game_record_wire endpoint method chinese language kwargs w in
  trace out.2 = trace w ++ [EvHttp r]
  ∧ out.1 = envelope_result (remote (http_count w) r).
Proof.
  intros [->| ->] Hmiss; [by apply request_game_record_miss|]. cbv zeta.
  rewrite <- (cache_with_session w), <- (self_lang_with_session w) in Hmiss.
  destruct (request_game_record_miss remote endpoint method chinese language tuple
              kwargs (with_session w) Hmiss) as [Ht Hr].
  cbv zeta in Ht, Hr.
  rewrite (game_record_wire_same _ _ _ _ _ w (with_session w)) in Ht, Hr
    by (apply jar_of_with_session || apply self_lang_with_session).
  by rewrite trace_with_session in Ht; rewrite http_count_with_session in Hr.
Qed.

Lemma hoyolab_uid_run (w : World) :
  hoyolab_uid w = (first_uid_cookie (jar_of w), with_session w).
Proof. unfold hoyolab_uid, bind, lift. by rewrite session_run. Qed.

Lemma uid_or_own_run (arg : option Z) (w : World) :
  uid_or_own arg w
  = match arg with
    | Some z => if decide (z = 0%Z) then hoyolab_uid w else (Ok (Some z), w)
    | None => hoyolab_uid w
    end.
Proof. unfold uid_or_own. destruct arg as [z|]; [|done]. by destruct (decide (z = 0%Z)). Qed.

Lemma uid_or_own_world (arg : option Z) (w : World) :
  (uid_or_own arg w).2 = w ∨ (uid_or_own arg w).2 = with_session w.
Proof.
  rewrite uid_or_own_run. destruct arg as [z|]; [destruct (decide (z = 0%Z))|];
    rewrite ?hoyolab_uid_run; auto.
Qed.

(** X12.  [get_record_card] asks for the uid given, and for the uid of the
    cookies when none or 0 is given; when reading that uid raises, the error
    is raised before any request.  An answer whose card list is empty makes
    it raise "User's data is not public"; otherwise the first card is
    built. *)
Theorem record_card_uid_and_privacy (arg : option Z) (language : option string)
    (w : World) :
  let out := get_record_card remote arg language w in
  let card_wire uid :=
    game_record_wire "game_record/card/wapi/getGameRecordCard" "GET" false language
      {| params := Some (<["uid" := json_of_uid uid]> (<["gids" := JInt 2]> ∅));
         json_body := None |} w in
  let resolved uid :=
    (∃ z, arg = Some z ∧ z ≠ 0%Z ∧ uid = Some z)
    ∨ ((arg = None ∨ arg = Some 0%Z) ∧ (hoyolab_uid w).1 = Ok uid) in
  (∀ e, (arg = None ∨ arg = Some 0%Z) → (hoyolab_uid w).1 = Raise e →
        out.1 = Raise e ∧ trace out.2 = trace w)
  ∧ (∀ uid, resolved uid →
       trace out.2 = trace w ++ [EvHttp (card_wire uid)]
       ∧ ∀ data cards,
           envelope_result (remote (http_count w) (card_wire uid)) = Ok data →
           getitem data "list" = Ok cards →
           (json_truthy cards = false →
            out.1 = Raise (Exception "User's data is not public"))
           ∧ (∀ card rest, cards = JList (card :: rest) →
                           out.1 = new_from RecordCard card)).
Proof.
  cbv zeta. split.
  - intros e Harg Hown. unfold get_record_card, bind.
    rewrite uid_or_own_run.
    assert (match arg with
            | Some z => if decide (z = 0%Z) then hoyolab_uid w else (Ok (Some z), w)
            | None => hoyolab_uid w
            end = hoyolab_uid w) as ->.
    { destruct Harg as [->| ->]; done. }
    rewrite hoyolab_uid_run in *. cbn [fst snd] in *. rewrite Hown.
    split; [done|apply trace_with_session].
  - intros uid Hres. unfold get_record_card, bind.
    pose proof (uid_or_own_world arg w) as Hworld.
    assert ((uid_or_own arg w).1 = Ok uid) as Huid.
    { rewrite uid_or_own_run. destruct Hres as [(z & -> & Hz & ->)|[[->| ->] Hown]].
      - by destruct (decide (z = 0%Z)).
      - done.
      - done. }
    destruct (uid_or_own arg w) as [res w0]. cbn [fst snd] in *. subst res.
    match goal with
    | |- context [request_game_record remote ?e ?m ?ch ?l None ?kw w0] =>
        destruct (request_game_record_miss_from e m ch l None kw w w0 Hworld
                    (cached_value_no_tuple _ _ _)) as [Ht Hr];
        destruct (request_game_record remote e m ch l None kw w0) as [[data|e0] w2]
    end; cbn [fst snd] in *.
    + split.
      * unfold lift. destruct (getitem data "list") as [cards|]; [|done]. cbn [fst snd].
        destruct (negb (json_truthy cards)); [done|]. cbn [fst snd].
        destruct (first_card cards); [|done]. by destruct (new_from _ _).
      * intros data' cards Hdata Hcards. rewrite <- Hr in Hdata. injection Hdata as <-.
        unfold lift. rewrite Hcards. cbn [fst snd]. split.
        -- by intros ->.
        -- intros card rest ->. cbn.
           by rewrite (list_getitem_front (card :: rest) 0 card eq_refl).
    + split; [done|]. intros data' cards Hdata. by rewrite <- Hr in Hdata.
Qed.

(** X13.  [get_spiral_abyss] keeps the current and the previous period
    apart, and always works in the language of the client.  On a client
    with a cache mapping, after a call returned, the same call again returns
    the same runs without a request; a call for the other period that is not
    cached yet sends its own request, with its own [schedule_type]. *)
Theorem spiral_abyss_cached_apart (uid : Z) (previous : bool) (w w1 : World)
    (c : gmap CacheKey json) (m : Model) :
  cache (self w) = Some c →
  get_spiral_abyss remote uid previous w = (Ok m, w1) →
  get_spiral_abyss remote uid previous w1 = (Ok m, w1)
  ∧ (c !! abyss_key uid (negb previous) (self_lang w) = None →
     ∃ r p, trace (get_spiral_abyss remote uid (negb previous) w1).2
              = trace w1 ++ [EvHttp r]
            ∧ params (req_kwargs r) = Some p
            ∧ p !! "schedule_type" = Some (JInt (schedule_type_of (negb previous)))
            ∧ req_headers r !! "x-rpc-language" = Some (self_lang w)).
Proof.
  intros Hc Hrun. unfold get_spiral_abyss, bind, lift in Hrun.
  destruct (recognize_server uid) as [server|] eqn:Hs; [|done].
  match type of Hrun with
  | context [request_game_record remote ?e ?m ?ch ?l (Some ?t) ?kw w] =>
      pose proof (request_game_record_view remote e m ch l (Some t) kw w) as [_ Hlang];
      destruct (request_game_record remote e m ch l (Some t) kw w)
        as [[data|e0] w2] eqn:Hrgr; [|done];
      destruct (request_game_record_stored remote e m ch l t kw w w2 c data
                  ltac:(done) Hc Hrgr) as (c1 & Hc1 & Hdata & Hother & _ & _)
  end.
  cbv zeta in Hlang. cbn [fst snd] in *.
  destruct (new_from SpiralAbyss data) as [m'|] eqn:Hnew; [|done].
  injection Hrun as -> ->. split.
  - unfold get_spiral_abyss, bind, lift. rewrite Hs.
    erewrite request_game_record_hit; [by rewrite Hnew|].
    rewrite Hlang, Hc1, effective_key_nonempty by done.
    by apply cached_value_hit.
  - intros Hnone. unfold get_spiral_abyss, bind, lift. rewrite Hs.
    match goal with
    | |- context [request_game_record remote ?e ?m ?ch ?l (Some ?t) ?kw w1] =>
        assert (cached_value (cache (self w1)) (effective_key (Some t) l (self_lang w1))
                = None) as Hmiss;
        [|destruct (request_game_record_miss remote e m ch l (Some t) kw w1 Hmiss)
            as [Ht _];
          destruct (request_game_record remote e m ch l (Some t) kw w1)
            as [[data'|e0] w3]]
    end.
    { rewrite Hlang, Hc1, effective_key_nonempty by done. unfold cached_value.
      destruct (_ && _); [|done]. cbn. rewrite Hother; [exact Hnone|].
      by destruct previous. }
    all: cbn [fst snd] in *; eexists _, _; split;
      [ try (destruct (new_from SpiralAbyss data')); exact Ht
      | split; [done|]; cbn; split;
        [ do 2 (rewrite lookup_insert_ne by done); by rewrite lookup_insert_eq
        | unfold record_headers; do 3 (rewrite lookup_insert_ne by done);
          rewrite lookup_insert_eq; cbn; by rewrite Hlang ] ].
Qed.

Lemma getitem_object (d : json) (k : string) (v : json) :
  getitem d k = Ok v → ∃ fields, d = JObj fields.
Proof. destruct d; try done. eauto. Qed.

(** What a call of [get_user] that returns leaves in the session cache. *)
Lemma get_user_cache (uid : Z) (language : option string) (w w1 : World)
    (c : gmap CacheKey json) (m : Model) :
  cache (self w) = Some c →
  get_user remote uid language w = (Ok m, w1) →
  let l := str_or language (self_lang w) in
  ∃ server c1 fields character_data,
    recognize_server uid = Ok server
    ∧ self_lang w1 = self_lang w
    ∧ cache (self w1) = Some c1
    ∧ c1 !! [KStr "characters"; KInt uid; KStr l] = Some character_data
    ∧ c1 !! [KStr "user"; KInt uid; KStr l]
      = Some (JObj (dict_update fields character_data).2)
    ∧ new_model UserStats (dict_update fields character_data).2 = Ok m
    ∧ (∀ old, c !! [KStr "user"; KInt uid; KStr l] = Some old → old = JObj fields).
Proof.
  intros Hc Hrun l. unfold get_user, bind, lift in Hrun.
  destruct (recognize_server uid) as [server|] eqn:Hs; [|done].
  match type of Hrun with
  | context [request_game_record remote ?e ?m ?ch ?lg (Some ?t) ?kw w] =>
      pose proof (request_game_record_view remote e m ch lg (Some t) kw w) as [_ Hla];
      destruct (request_game_record remote e m ch lg (Some t) kw w)
        as [[data|e0] wa] eqn:Hfirst; [|done];
      destruct (request_game_record_stored remote e m ch lg t kw w wa c data
                  ltac:(done) Hc Hfirst) as (ca & Hca & Hdata & _ & _ & Hold)
  end.
  cbv zeta in Hla. cbn [fst snd] in *.
  destruct (getitem data "avatars") as [avatars|] eqn:Hav; [|done].
  destruct (getitem_object _ _ _ Hav) as [fields ->].
  destruct (iter_json avatars) as [chars|]; [|done].
  destruct (comprehension _ chars) as [ids|]; [|done].
  match type of Hrun with
  | context [request_game_record remote ?e ?m ?ch ?lg (Some ?t) ?kw wa] =>
      pose proof (request_game_record_view remote e m ch lg (Some t) kw wa) as [_ Hlb];
      destruct (request_game_record remote e m ch lg (Some t) kw wa)
        as [[cd|e0] wb] eqn:Hsecond; [|done];
      destruct (request_game_record_stored remote e m ch lg t kw wa wb ca cd
                  ltac:(done) Hca Hsecond) as (cb & Hcb & Hcd & Hother & _ & _)
  end.
  cbv zeta in Hlb. cbn [fst snd] in *. rewrite Hla in *.
  unfold get_lang, gets, update_shared, bind, modify, lift, ret in Hrun.
  cbn [fst snd] in Hrun. fold (self_lang wb) in Hrun. rewrite Hlb, Hcb in Hrun.
  fold l in Hrun, Hdata, Hcd, Hother, Hold.
  destruct (dict_update fields cd) as [r fields'] eqn:Hupd.
  cbn [fst snd] in Hrun. destruct r as [[]|e0]; [|done].
  cbn [new_from] in Hrun.
  destruct (new_model UserStats fields') as [m'|] eqn:Hmodel; [|done].
  injection Hrun as -> <-.
  exists server, (<[[KStr "user"; KInt uid; KStr l] := JObj fields']> cb), fields, cd.
  rewrite Hupd. cbn [snd].
  split; [done|]. split; [exact Hlb|]. split; [done|]. split; [|split; [|split]].
  - rewrite lookup_insert_ne by done. exact Hcd.
  - by rewrite lookup_insert_eq.
  - done.
  - intros old Hsome. by destruct (Hold old Hsome) as [<- _].
Qed.

Lemma dict_set_getitem (k : string) (v : json) (d : list (string * json)) (k' : string) :
  getitem (JObj (dict_set k v d)) k'
  = if decide (k' = k) then Ok v else getitem (JObj d) k'.
Proof.
  induction d as [|[k0 v0] d IH]; cbn.
  - destruct (decide (k = k')) as [->|Hk]; cbn.
    + by rewrite decide_True.
    + by rewrite decide_False by congruence.
  - destruct (decide (k0 = k)) as [->|Hk0]; cbn.
    + destruct (decide (k = k')) as [->|Hk]; cbn.
      * by rewrite decide_True.
      * by rewrite decide_False by congruence.
    + destruct (decide (k0 = k')) as [->|Hk']; cbn.
      * by rewrite decide_False.
      * cbn in IH. revert IH.
        destruct (list_find _ (dict_set k v d)) as [[i [k1 v1]]|],
          (list_find _ d) as [[j [k2 v2]]|]; cbn; intros IH;
          destruct (decide (k' = k)); by simplify_eq.
Qed.

Lemma dict_merge_getitem_other (d o : list (string * json)) (k : string) :
  k ∉ o.*1 → getitem (JObj (dict_merge d o)) k = getitem (JObj d) k.
Proof.
  unfold dict_merge. revert d. induction o as [|[k0 v0] o IH]; intros d Hk; [done|].
  cbn [foldl fst snd]. rewrite IH.
  - cbn [fst snd]. rewrite dict_set_getitem. rewrite decide_False; [done|].
    intros ->. apply Hk. cbn. apply list_elem_of_here.
  - intros Hin. apply Hk. cbn. by apply list_elem_of_further.
Qed.

Lemma dict_merge_getitem_new (d o : list (string * json)) (k : string) (v : json) :
  NoDup o.*1 → (k, v) ∈ o → getitem (JObj (dict_merge d o)) k = Ok v.
Proof.
  unfold dict_merge. revert d. induction o as [|[k0 v0] o IH]; intros d Hnodup Hin.
  { by apply elem_of_nil in Hin. }
  cbn [foldl fst snd fmap list_fmap] in *. apply NoDup_cons in Hnodup as [Hfresh Hnodup].
  apply elem_of_cons in Hin as [[= -> ->]|Hin].
  - pose proof (dict_merge_getitem_other (dict_set k0 v0 d) o k0 Hfresh) as Hkeep.
    unfold dict_merge in Hkeep. rewrite Hkeep.
    rewrite dict_set_getitem. by rewrite decide_True.
  - by apply IH.
Qed.

(** X14.  [get_user] updates the cached statistics in place.  On a client
    with a cache mapping, after [get_user] returned, the entry under
    [("user", uid, language)] is no longer the answer of the index endpoint
    but the dictionary the returned model was built from, the statistics
    updated with the character data: it has every field of the character
    data and, for the other keys, the fields of the statistics.  The
    character data is cached under [("characters", uid, language)]. *)
Theorem get_user_merges_cached_entry (uid : Z) (language : option string) (w w1 : World)
    (c : gmap CacheKey json) (m : Model) :
  cache (self w) = Some c →
  get_user remote uid language w = (Ok m, w1) →
  let l := str_or language (self_lang w) in
  ∃ c1 fields merged character_data,
    cache (self w1) = Some c1
    ∧ c1 !! [KStr "characters"; KInt uid; KStr l] = Some character_data
    ∧ c1 !! [KStr "user"; KInt uid; KStr l] = Some (JObj merged)
    ∧ new_model UserStats merged = Ok m
    ∧ (∀ old, c !! [KStr "user"; KInt uid; KStr l] = Some old → old = JObj fields)
    ∧ (∀ o, character_data = JObj o →
         merged = dict_merge fields o
         ∧ (∀ k, k ∉ o.*1 → getitem (JObj merged) k = getitem (JObj fields) k)
         ∧ (NoDup o.*1 → ∀ k v, (k, v) ∈ o → getitem (JObj merged) k = Ok v)).
Proof.
  intros Hc Hrun l.
  destruct (get_user_cache uid language w w1 c m Hc Hrun)
    as (server & c1 & fields & cd & _ & _ & Hc1 & Hcd & Huser & Hmodel & Hold).
  exists c1, fields, (dict_update fields cd).2, cd.
  split; [done|]. split; [done|]. split; [done|]. split; [done|]. split; [done|].
  intros o ->. rewrite dict_update_mapping. cbn [snd].
  split; [done|]. split.
  - intros k Hk. by apply dict_merge_getitem_other.
  - intros Hnodup k v Hin. by apply dict_merge_getitem_new.
Qed.

(** X15.  After [get_user] returned on a client with a cache mapping,
    [get_partial_user] for the same uid and effective language makes no
    request and builds its model from the updated entry, character data
    included; a repeated [get_user] makes no request either. *)
Theorem partial_user_after_user (uid : Z) (language : option string) (w w1 : World)
    (c : gmap CacheKey json) (m : Model) :
  cache (self w) = Some c →
  get_user remote uid language w = (Ok m, w1) →
  ∀ language', str_or language' (self_lang w) = str_or language (self_lang w) →
    (∃ merged, new_model UserStats merged = Ok m
               ∧ get_partial_user remote uid language' w1
                 = (new_model PartialUserStats merged, w1))
    ∧ trace (get_user remote uid language' w1).2 = trace w1.
Proof.
  intros Hc Hrun language' Hlang.
  destruct (get_user_cache uid language w w1 c m Hc Hrun)
    as (server & c1 & fields & cd & Hs & Hl & Hc1 & Hcd & Huser & Hmodel & _).
  cbv zeta in Hcd, Huser. rewrite <- Hlang in Hcd, Huser.
  assert (∀ e m0 ch kw,
            request_game_record remote e m0 ch language' (Some [KStr "user"; KInt uid]) kw w1
            = (Ok (JObj (dict_update fields cd).2), w1)) as Huser_hit.
  { intros. apply request_game_record_hit.
    rewrite Hl, Hc1, effective_key_nonempty by done. by apply cached_value_hit. }
  assert (∀ e m0 ch kw,
            request_game_record remote e m0 ch language'
              (Some [KStr "characters"; KInt uid]) kw w1 = (Ok cd, w1)) as Hchar_hit.
  { intros. apply request_game_record_hit.
    rewrite Hl, Hc1, effective_key_nonempty by done. by apply cached_value_hit. }
  split.
  - exists (dict_update fields cd).2. split; [done|].
    unfold get_partial_user, bind, lift. by rewrite Hs, Huser_hit.
  - unfold get_user, bind, lift. rewrite Hs, Huser_hit.
    destruct (getitem _ "avatars"); [|done].
    destruct (iter_json _); [|done].
    destruct (comprehension _ _); [|done].
    rewrite Hchar_hit.
    unfold get_lang, gets, update_shared, bind, modify, lift, ret. cbn [fst snd].
    rewrite Hc1.
    destruct (dict_update (dict_update fields cd).2 cd) as [r again]. cbn [fst snd].
    destruct r as [[]|e0]; [|done]. by destruct (new_from _ _).
Qed.

(** *** Daily rewards *)

Lemma reward_wire_same endpoint method chinese language kwargs (w w' : World) :
  jar_of w' = jar_of w → self_lang w' = self_lang w →
  reward_wire endpoint method chinese language kwargs w'
  = reward_wire endpoint method chinese language kwargs w.
Proof.
  intros Hj Hl. unfold reward_wire, reward_params. rewrite Hl. by apply wire_same_jar.
Qed.

Lemma get_reward_info_spec (language : option string) (w : World) :
  let out := get_reward_info remote language w in
  let r := reward_wire "info" "GET" false language no_kwargs w in
  trace out.2 = trace w ++ [EvHttp r]
  ∧ jar_of out.2 = jar_of w ∧ self_lang out.2 = self_lang w
  ∧ out.1 = reward_info_of (envelope_result (remote (http_count w) r)).
Proof.
  cbv zeta. unfold get_reward_info, bind, lift, ret.
  destruct (request_daily_reward_spec remote "info" "GET" false language no_kwargs w)
    as (Ht & Hr & Hj & Hl). cbv zeta in Ht, Hr, Hj, Hl. rewrite <- Hr.
  destruct (request_daily_reward _ _ _ _ _ _ _) as [[data|e] w2]; cbn [fst snd] in *;
    [|done].
  unfold reward_info_of.
  destruct (getitem data "is_sign"); [|done].
  by destruct (getitem data "total_sign_day").
Qed.

Lemma get_monthly_rewards_spec (language : option string) (w : World) :
  let out := get_monthly_rewards remote language w in
  let r := reward_wire "home" "GET" false language no_kwargs w in
  trace out.2 = trace w ++ [EvHttp r]
  ∧ out.1 = monthly_rewards_of (envelope_result (remote (http_count w) r)).
Proof.
  cbv zeta. unfold get_monthly_rewards, bind, lift.
  destruct (request_daily_reward_spec remote "home" "GET" false language no_kwargs w)
    as (Ht & Hr & _). cbv zeta in Ht, Hr. rewrite <- Hr.
  destruct (request_daily_reward _ _ _ _ _ _ _) as [[data|e] w2]; cbn [fst snd] in *;
    [|done].
  unfold monthly_rewards_of.
  destruct (getitem data "awards") as [l|]; [|done].
  destruct (iter_json l) as [items|]; [|done]. cbn [fst snd].
  by destruct (comprehension _ items).
Qed.

(** X16.  [claim_daily_reward] asks first whether the reward was claimed,
    in the language of the client whatever language the caller gave.  When
    the answer says it was, the result is [None] and that request is the
    only one: nothing is signed. *)
Theorem claim_when_signed_in (language : option string) (w : World) (s n : json) :
  let r1 := reward_wire "info" "GET" false None no_kwargs w in
  let out := claim_daily_reward remote language w in
  reward_info_of (envelope_result (remote (http_count w) r1)) = Ok (s, n) →
  json_truthy s = true →
  out.1 = Ok None ∧ trace out.2 = trace w ++ [EvHttp r1].
Proof.
  cbv zeta. intros Hinfo Hsigned. unfold claim_daily_reward, bind.
  destruct (get_reward_info_spec None w) as (Ht & _ & _ & Hr). cbv zeta in Ht, Hr.
  rewrite Hinfo in Hr.
  destruct (get_reward_info remote None w) as [res wa]. cbn [fst snd] in *. subst res.
  cbn [fst snd]. by rewrite Hsigned.
Qed.

(** X17.  When the reward was not claimed yet, [claim_daily_reward] signs
    with a POST and then fetches the rewards of the month, in that order and
    only the last in the language of the caller; if signing raises, the
    rewards are not fetched.  The reward returned is the one at the index
    the first answer gave, the number of rewards claimed before signing. *)
Theorem claim_sequence (language : option string) (w : World) (s n : json) :
  let r1 := reward_wire "info" "GET" false None no_kwargs w in
  let r2 := reward_wire "sign" "POST" false None no_kwargs w in
  let r3 := reward_wire "home" "GET" false language no_kwargs w in
  let signed := envelope_result (remote (S (http_count w)) r2) in
  let month := monthly_rewards_of (envelope_result (remote (S (S (http_count w))) r3)) in
  let out := claim_daily_reward remote language w in
  reward_info_of (envelope_result (remote (http_count w) r1)) = Ok (s, n) →
  json_truthy s = false →
  (∀ e, signed = Raise e →
        out.1 = Raise e ∧ trace out.2 = trace w ++ [EvHttp r1; EvHttp r2])
  ∧ (∀ d, signed = Ok d →
       trace out.2 = trace w ++ [EvHttp r1; EvHttp r2; EvHttp r3]
       ∧ out.1 = match month with
                 | Ok rewards =>
                     match list_getitem rewards n with
                     | Ok reward => Ok (Some reward)
                     | Raise e => Raise e
                     end
                 | Raise e => Raise e
                 end
       ∧ ∀ rewards (i : nat) reward,
           month = Ok rewards → n = JInt (Z.of_nat i) → rewards !! i = Some reward →
           out.1 = Ok (Some reward)).
Proof.
  cbv zeta. intros Hinfo Hsigned. unfold claim_daily_reward, bind.
  destruct (get_reward_info_spec None w) as (Ht1 & Hj1 & Hl1 & Hr1).
  cbv zeta in Ht1, Hj1, Hl1, Hr1. rewrite Hinfo in Hr1.
  destruct (get_reward_info remote None w) as [res wa]. cbn [fst snd] in *. subst res.
  cbn [fst snd]. rewrite Hsigned.
  destruct (request_daily_reward_spec remote "sign" "POST" false None no_kwargs wa)
    as (Ht2 & Hr2 & Hj2 & Hl2). cbv zeta in Ht2, Hr2, Hj2, Hl2.
  rewrite (reward_wire_same _ _ _ _ _ w wa) in Ht2, Hr2 by done.
  rewrite (http_count_trace w wa _ Ht1) in Hr2.
  destruct (request_daily_reward remote "sign" "POST" false None no_kwargs wa)
    as [[d2|e2] wb]; cbn [fst snd] in *.
  - split; [intros e He; by rewrite He in Hr2|].
    intros d Hd.
    destruct (get_monthly_rewards_spec language wb) as (Ht3 & Hr3).
    cbv zeta in Ht3, Hr3.
    rewrite (reward_wire_same _ _ _ _ _ w wb) in Ht3, Hr3 by congruence.
    rewrite (http_count_trace wa wb _ Ht2), (http_count_trace w wa _ Ht1) in Hr3.
    destruct (get_monthly_rewards remote language wb) as [res wc].
    cbn [fst snd] in *. subst res.
    assert (trace (match monthly_rewards_of
                           (envelope_result
                              (remote (S (S (http_count w)))
                                 (reward_wire "home" "GET" false language no_kwargs w)))
                   with
                   | Ok a =>
                       (let (r, w') := lift (list_getitem a n) wc in
                        match r with
                        | Ok a0 => ret (Some a0) w'
                        | Raise e => (Raise e, w')
                        end)
                   | Raise e => (Raise e, wc)
                   end).2 = trace wc) as Htrace.
    { destruct (monthly_rewards_of _) as [rewards|]; [|done].
      unfold lift, ret. by destruct (list_getitem rewards n). }
    split; [|split].
    + rewrite Htrace, Ht3, Ht2, Ht1. by rewrite <- !app_assoc.
    + destruct (monthly_rewards_of _) as [rewards|]; [|done].
      unfold lift, ret. by destruct (list_getitem rewards n).
    + intros rewards i reward Hmonth -> Hi. rewrite Hmonth. unfold lift, ret.
      by rewrite (list_getitem_front rewards i reward Hi).
  - split; [|intros d Hd; by rewrite Hd in Hr2].
    intros e He. rewrite He in Hr2. injection Hr2 as ->.
    split; [done|]. rewrite Ht2, Ht1. by rewrite <- !app_assoc.
Qed.

(** *** Closing *)

(** X19.  [close] leaves a closed session in place and makes no request: on
    a client without a session one is created and closed, the cookie jar is
    kept, and afterwards the [session] property returns that closed session
    instead of a new one; closing again changes nothing. *)
Theorem close_stays_closed (w : World) :
  let w1 := (close w).2 in
  (close w).1 = Ok tt
  ∧ closed (session_of w1) = true
  ∧ jar_of w1 = jar_of w
  ∧ trace w1 = trace w
  ∧ cache (self w1) = cache (self w)
  ∧ session w1 = (Ok (session_of w1), w1)
  ∧ close w1 = (Ok tt, w1).
Proof.
  cbv zeta. unfold close, bind. rewrite session_run.
  unfold session_of, with_session, jar_of, session_of, modify, ret, session.
  destruct (_session (self w)) as [s|] eqn:Hs; cbn.
  - destruct (closed s) eqn:Hclosed; cbn; rewrite ?Hs; cbn; rewrite ?Hclosed; done.
  - done.
Qed.

(** *** Calls that are never cached *)

Lemma request_game_record_no_tuple endpoint method chinese language kwargs (w : World) :
  let out := request_game_record remote endpoint method chinese language None kwargs w in
  trace out.2 = trace w ++ [EvHttp (game_record_wire endpoint method chinese language
                                      kwargs w)]
  ∧ cache (self out.2) = cache (self w)
  ∧ out.1 = envelope_result
              (remote (http_count w)
                 (game_record_wire endpoint method chinese language kwargs w)).
Proof.
  cbv zeta.
  destruct (request_game_record_miss remote endpoint method chinese language None kwargs w
              (cached_value_no_tuple _ _ _)) as [Ht Hr].
  split; [exact Ht|]. split; [|exact Hr].
  pose proof (request_game_record_cache remote endpoint method chinese language None
                kwargs w) as Hcache.
  cbv zeta in Hcache. rewrite Hcache, cached_value_no_tuple. by destruct (_ .1).
Qed.

(** X21.  [accounts], [search_users] and [set_visibility] are never cached:
    also on a client with a cache mapping each call sends one request and
    leaves the cache as it is.  [set_visibility] posts the flag with the
    game id 2 as JSON and returns nothing of the answer. *)
Theorem uncached_calls (w : World) :
  (∀ language,
     ∃ r, trace (accounts remote language w).2 = trace w ++ [EvHttp r]
          ∧ cache (self (accounts remote language w).2) = cache (self w))
  ∧ (∀ keyword language,
       ∃ r, trace (search_users remote keyword language w).2 = trace w ++ [EvHttp r]
            ∧ cache (self (search_users remote keyword language w).2) = cache (self w))
  ∧ (∀ public,
       let out := set_visibility remote public w in
       ∃ r, trace out.2 = trace w ++ [EvHttp r]
            ∧ cache (self out.2) = cache (self w)
            ∧ req_method r = "POST"
            ∧ json_body (req_kwargs r)
              = Some (JObj [("is_public", JBool public); ("game_id", JInt 2)])
            ∧ out.1 = match envelope_result (remote (http_count w) r) with
                      | Ok _ => Ok tt
                      | Raise e => Raise e
                      end).
Proof.
  split; [|split].
  - intros language. unfold accounts, bind, lift.
    match goal with
    | |- context [request_game_record remote ?e ?m ?ch ?l None ?kw w] =>
        destruct (request_game_record_no_tuple e m ch l kw w) as (Ht & Hc & _);
        exists (game_record_wire e m ch l kw w);
        destruct (request_game_record remote e m ch l None kw w) as [[data|e0] w2]
    end; cbn [fst snd] in *; [|done].
    destruct (getitem data "list") as [l|]; [|done].
    destruct (iter_json l) as [items|]; [|done]. cbn [fst snd]. done.
  - intros keyword language. unfold search_users, bind, lift.
    match goal with
    | |- context [request_game_record remote ?e ?m ?ch ?l None ?kw w] =>
        destruct (request_game_record_no_tuple e m ch l kw w) as (Ht & Hc & _);
        exists (game_record_wire e m ch l kw w);
        destruct (request_game_record remote e m ch l None kw w) as [[data|e0] w2]
    end; cbn [fst snd] in *; [|done].
    destruct (getitem data "users") as [l|]; [|done].
    destruct (iter_json l) as [items|]; [|done]. cbn [fst snd]. done.
  - intros public. cbv zeta. unfold set_visibility, bind, ret.
    match goal with
    | |- context [request_game_record remote ?e ?m ?ch ?l None ?kw w] =>
        destruct (request_game_record_no_tuple e m ch l kw w) as (Ht & Hc & Hr);
        exists (game_record_wire e m ch l kw w);
        destruct (request_game_record remote e m ch l None kw w) as [[data|e0] w2]
    end; cbn [fst snd] in *; rewrite <- Hr; done.
Qed.

(** X22.  [get_banner_details] needs no credential: whatever cookies and
    access key the client has, it sends one GET request for the static file
    of the banner in the effective language, written in full, and builds the
    model from the body; only a transport failure raises before that. *)
Theorem banner_details_request (banner_id : string) (language : option string)
    (w : World) :
  let r := wire (url_join Const.WEBSTATIC_URL
                   ("/hk4e/gacha_info/os_asia/" +:+ banner_id +:+ "/"
                    +:+ str_or language (self_lang w) +:+ ".json"))
             "GET" None no_kwargs w in
  let out := get_banner_details remote banner_id language w in
  trace out.2 = trace w ++ [EvHttp r]
  ∧ out.1 = match remote (http_count w) r with
            | RespFail msg => Raise (ClientError msg)
            | RespEnvelope retcode message data =>
                new_from BannerDetails
                  (JObj [("retcode", JInt retcode); ("message", JStr message);
                         ("data", data)])
            | RespStatic body => new_from BannerDetails body
            end.
Proof.
  cbv zeta. unfold get_banner_details, bind, get_lang, gets, lift. cbn [fst snd].
  fold (self_lang w).
  unfold request_webstatic, bind. rewrite session_run. unfold send.
  rewrite http_count_with_session. cbn [fst snd].
  match goal with
  | |- context [remote (http_count w) ?q] =>
      change q with (wire (url_join Const.WEBSTATIC_URL
                             ("/hk4e/gacha_info/os_asia/" +:+ banner_id +:+ "/"
                              +:+ str_or language (self_lang w) +:+ ".json"))
                       "GET" None no_kwargs w)
  end.
  destruct (remote _ _); cbn; rewrite trace_with_session; done.
Qed.
End RecordFacts.

(** ** Transaction reasons *)

Lemma string_app_cons (c : ascii) (s t : string) : String c s +:+ t = String c (s +:+ t).
Proof. reflexivity. Qed.

Lemma chars_app (s t : string) : chars (s +:+ t) = chars s ++ chars t.
Proof.
  induction s as [|c s IH]; [done|]. rewrite string_app_cons.
  unfold chars in *. cbn [String.list_ascii_of_string]. by rewrite IH.
Qed.

Lemma string_app_nil_r (s : string) : s +:+ "" = s.
Proof. induction s as [|c s IH]; [done|]. by rewrite string_app_cons, IH. Qed.

Lemma string_app_assoc (s t u : string) : (s +:+ t) +:+ u = s +:+ t +:+ u.
Proof. induction s as [|c s IH]; [done|]. by rewrite !string_app_cons, IH. Qed.

Lemma last_segment_spec (s : string) :
  ∀ acc, "_"%char ∉ chars acc →
    ("_"%char ∉ chars (last_segment acc s))
    ∧ ((("_"%char ∉ chars s) ∧ (last_segment acc s = (acc +:+ s)))
       ∨ ∃ p, s = (p +:+ String "_" (last_segment acc s))).
Proof.
  induction s as [|c s IH]; intros acc Hacc; cbn [last_segment].
  - split; [done|]. left. split; [apply not_elem_of_nil|]. by rewrite string_app_nil_r.
  - destruct (Ascii.eqb_spec c "_") as [->|Hc].
    + destruct (IH "" (not_elem_of_nil _)) as [Hfree [[Hs Heq]|[p Hp]]].
      * split; [done|]. right. exists "". by rewrite Heq.
      * split; [done|]. right. exists (String "_" p).
        rewrite string_app_cons. by rewrite <- Hp.
    + assert ("_"%char ∉ chars (acc +:+ String c "")) as Hacc'.
      { rewrite chars_app. cbn. intros [?|Hin]%elem_of_app; [done|].
        apply list_elem_of_singleton in Hin. congruence. }
      destruct (IH _ Hacc') as [Hfree [[Hs Heq]|[p Hp]]].
      * split; [done|]. left. split.
        -- cbn. intros [?|?]%elem_of_cons; [congruence|done].
        -- rewrite Heq. by rewrite string_app_assoc.
      * split; [done|]. right. exists (String c p).
        rewrite string_app_cons. by rewrite <- Hp.
Qed.

Lemma prefix_chars (a b : string) :
  String.prefix a b = true → ∀ c, c ∈ chars a → c ∈ chars b.
Proof.
  revert a. induction b as [|y b IH]; intros a; destruct a as [|x a]; cbn.
  - by intros _ c ?%elem_of_nil.
  - done.
  - by intros _ c ?%elem_of_nil.
  - destruct (ascii_dec x y) as [->|]; [|done].
    intros Hp c [->|Hc]%elem_of_cons; [apply list_elem_of_here|].
    apply list_elem_of_further. by apply (IH a).
Qed.

(** X18.  The keys of the mapping [_get_transaction_reasons] builds are the
    last segments, after the last underscore, of the keys of the file that
    start with [selfinquiry_general_reason_]: no key of the result contains
    an underscore, and each comes, with its value, from such a key of the
    file. *)
Theorem transaction_reason_keys `{Ext : Externals} (remote : Remote) (language : string)
    (w w1 : World) (d : gmap string json) :
  fetch_transaction_reasons remote language w = (Ok d, w1) →
  ∃ fields,
    (request_webstatic remote (reasons_url language) None no_kwargs w).1 = Ok (JObj fields)
    ∧ ∀ k v, d !! k = Some v →
        ("_"%char ∉ chars k)
        ∧ ∃ p, (p +:+ String "_" k, v) ∈ fields
               ∧ String.prefix "selfinquiry_general_reason_" (p +:+ String "_" k) = true.
Proof.
  unfold fetch_transaction_reasons, bind, reasons_base, reasons_url. intros Hrun.
  rewrite <- string_app_assoc.
  destruct (request_webstatic remote _ None no_kwargs w) as [[data|e] w2]; [|done].
  destruct data as [| | | | |fields]; try done.
  exists fields. split; [done|]. injection Hrun as <- _.
  set (f := fun (acc : gmap string json) (kv : string * json) =>
              if String.prefix "selfinquiry_general_reason_" kv.1
              then <[last_segment "" kv.1 := kv.2]> acc else acc).
  set (Q := fun (k : string) (v : json) =>
              ("_"%char ∉ chars k)
              ∧ ∃ p, (p +:+ String "_" k, v) ∈ fields
                     ∧ String.prefix "selfinquiry_general_reason_" (p +:+ String "_" k)
                       = true).
  assert (∀ l acc, (∀ kv, kv ∈ l → kv ∈ fields) →
                   (∀ k v, acc !! k = Some v → Q k v) →
                   ∀ k v, foldl f acc l !! k = Some v → Q k v) as Hfold.
  { induction l as [|[k0 v0] l IH]; intros acc Hsub Hacc; [done|].
    cbn [foldl]. apply IH; [intros kv Hkv; apply Hsub; by apply list_elem_of_further|].
    unfold f. cbn [fst snd].
    destruct (String.prefix _ k0) eqn:Hprefix; [|done].
    intros k v. destruct (decide (last_segment "" k0 = k)) as [<-|Hk].
    - rewrite lookup_insert_eq. intros [= <-].
      destruct (last_segment_spec k0 "" (not_elem_of_nil _)) as [Hfree [[Hno _]|[p Hp]]].
      + exfalso. apply Hno. apply (prefix_chars _ _ Hprefix). by_listing.
      + split; [done|]. exists p. rewrite <- Hp. split; [|done].
        apply Hsub, list_elem_of_here.
    - rewrite lookup_insert_ne by done. apply Hacc. }
  intros k v. apply (Hfold fields ∅); [done|]. intros k' v'. by rewrite lookup_empty.
Qed.

(** X20.  [k.split("_")[-1]], as the client uses it, gives the part of the
    key after its last underscore: the result has no underscore, and the key
    is either the result itself, when it has no underscore, or some text, an
    underscore and the result. *)
Theorem last_segment_after_underscore (s : string) :
  ("_"%char ∉ chars (last_segment "" s))
  ∧ ((("_"%char ∉ chars s) ∧ (last_segment "" s = s))
     ∨ ∃ p, s = (p +:+ String "_" (last_segment "" s))).
Proof. apply (last_segment_spec s ""), not_elem_of_nil. Qed.

(** ** Witnesses for the rest of the client *)


(** Witness of [game_record_without_cache]: a client without a cache
    mapping, called with a tuple. *)
Lemma game_record_without_cache_witness :
  let remote := Demo.scripted [Demo.ok_answer] Demo.refused_answer in
  let out := request_game_record (Ext:=Demo.externals) remote
               "game_record/genshin/api/index" "GET" false None
               (Some [KStr "user"; KInt 1]) no_kwargs (Demo.world_of Demo.client0) in
  cache (self out.2) = None ∧ http_count out.2 = 1.
Proof.
  cbv zeta.
  destruct (game_record_without_cache (Ext:=Demo.externals)
              (Demo.scripted [Demo.ok_answer] Demo.refused_answer)
              "game_record/genshin/api/index" "GET" false None
              (Some [KStr "user"; KInt 1]) no_kwargs (Demo.world_of Demo.client0)
              eq_refl) as (Hcache & Htrace & _).
  split; [exact Hcache|]. exact (http_count_trace _ _ _ Htrace).
Defined.

(** Witness of [game_record_language]: an empty [lang] argument on a client
    in [en-us]. *)
Lemma game_record_language_witness :
  let remote := Demo.scripted [Demo.ok_answer] Demo.refused_answer in
  let w := Demo.world_of Demo.caching_client in
  let r := game_record_wire (Ext:=Demo.externals) "game_record/genshin/api/index" "GET"
             false (Some "") no_kwargs w in
  req_headers r !! "x-rpc-language" = Some "en-us".
Proof.
  cbv zeta.
  destruct (game_record_language (Ext:=Demo.externals)
              (Demo.scripted [Demo.ok_answer] Demo.refused_answer)
              "game_record/genshin/api/index" "GET" false (Some "")
              [KStr "user"; KInt 1] no_kwargs (Demo.world_of Demo.caching_client) ∅
              ltac:(discriminate) eq_refl eq_refl) as (_ & Hheader & _).
  exact Hheader.
Defined.

(** Witness of [authkey_precedence]: an empty key on the call, none on the
    client. *)
Lemma authkey_precedence_witness :
  ∃ r p, trace (request_gacha_info (Ext:=Demo.externals)
                  (Demo.scripted [Demo.ok_answer] Demo.refused_answer)
                  "getConfigList" "GET" None (Some "") no_kwargs
                  (Demo.world_of Demo.client0)).2 = [] ++ [EvHttp r]
         ∧ params (req_kwargs r) = Some p
         ∧ p !! "authkey" = Some JNull.
Proof.
  destruct (authkey_precedence (Ext:=Demo.externals)
              (Demo.scripted [Demo.ok_answer] Demo.refused_answer)
              "getConfigList" "GET" None (Some "") no_kwargs
              (Demo.world_of Demo.client0)
              ltac:(by intros [? _])) as ((r & p & Ht & _ & Hp & Hkey & _) & _).
  exists r, p. split; [exact Ht|]. split; [exact Hp|]. exact Hkey.
Defined.

(** Witness of [spiral_abyss_cached_apart]: the current period is fetched,
    then answered from the cache. *)
Lemma spiral_abyss_cached_apart_witness :
  let remote := Demo.scripted [Sample.abyss_answer 12; Sample.abyss_answer 11]
                  Demo.refused_answer in
  let w1 := (get_spiral_abyss (Ext:=Demo.externals) (Mod:=Sample.models) remote
               700000001 false (Demo.world_of Sample.logged_in)).2 in
  get_spiral_abyss (Ext:=Demo.externals) (Mod:=Sample.models) remote 700000001 false w1
  = (Ok (SpiralAbyss, [("max_floor", JInt 12)]), w1).
Proof.
  cbv zeta.
  apply (spiral_abyss_cached_apart (Ext:=Demo.externals) (Mod:=Sample.models)
           (Demo.scripted [Sample.abyss_answer 12; Sample.abyss_answer 11]
              Demo.refused_answer)
           700000001 false (Demo.world_of Sample.logged_in) _ ∅
           (SpiralAbyss, [("max_floor", JInt 12)])
           eq_refl ltac:(vm_compute; reflexivity)).
Defined.

(** Witness of [get_user_merges_cached_entry]: after [get_user] the cached
    user entry carries the weapons of the character data. *)
Lemma get_user_merges_cached_entry_witness :
  let remote := Demo.scripted [Sample.index_answer; Sample.character_answer]
                  Demo.refused_answer in
  let out := get_user (Ext:=Demo.externals) (Mod:=Sample.models) (Blt:=Sample.builtins)
               remote 700000001 None (Demo.world_of Sample.logged_in) in
  ∃ c1 merged,
    cache (self out.2) = Some c1
    ∧ c1 !! [KStr "user"; KInt 700000001; KStr "en-us"] = Some (JObj merged)
    ∧ out.1 = Ok (UserStats, merged).
Proof.
  cbv zeta.
  destruct (get_user_merges_cached_entry (Ext:=Demo.externals) (Mod:=Sample.models)
              (Blt:=Sample.builtins)
              (Demo.scripted [Sample.index_answer; Sample.character_answer]
                 Demo.refused_answer)
              700000001 None (Demo.world_of Sample.logged_in)
              (get_user (Ext:=Demo.externals) (Mod:=Sample.models) (Blt:=Sample.builtins)
                 (Demo.scripted [Sample.index_answer; Sample.character_answer]
                    Demo.refused_answer)
                 700000001 None (Demo.world_of Sample.logged_in)).2
              ∅
              (UserStats,
               dict_merge
                 [("stats", JObj [("active_day_number", JInt 100)]);
                  ("avatars", JList [JObj [("id", JInt 10000002)];
                                     JObj [("id", JInt 10000021)]])]
                 [("avatars",
                   JList [JObj [("id", JInt 10000002); ("weapon", JStr "Mistsplitter")];
                          JObj [("id", JInt 10000021); ("weapon", JStr "Rust")]])])
              eq_refl ltac:(vm_compute; reflexivity))
    as (c1 & fields & merged & cd & Hc1 & _ & Huser & Hmodel & _).
  exists c1, merged. split; [exact Hc1|]. split; [exact Huser|].
  cbn in Hmodel. injection Hmodel as ->. vm_compute. reflexivity.
Defined.

(** Witness of [partial_user_after_user]: [get_partial_user] after
    [get_user] makes no request. *)
Lemma partial_user_after_user_witness :
  let remote := Demo.scripted [Sample.index_answer; Sample.character_answer]
                  Demo.refused_answer in
  let w1 := (get_user (Ext:=Demo.externals) (Mod:=Sample.models) (Blt:=Sample.builtins)
               remote 700000001 None (Demo.world_of Sample.logged_in)).2 in
  trace (get_user (Ext:=Demo.externals) (Mod:=Sample.models) (Blt:=Sample.builtins)
           remote 700000001 (Some "en-us") w1).2 = trace w1.
Proof.
  cbv zeta.
  apply (partial_user_after_user (Ext:=Demo.externals) (Mod:=Sample.models)
           (Blt:=Sample.builtins)
           (Demo.scripted [Sample.index_answer; Sample.character_answer]
              Demo.refused_answer)
           700000001 None (Demo.world_of Sample.logged_in) _ ∅
           (UserStats,
            dict_merge
              [("stats", JObj [("active_day_number", JInt 100)]);
               ("avatars", JList [JObj [("id", JInt 10000002)];
                                  JObj [("id", JInt 10000021)]])]
              [("avatars",
                JList [JObj [("id", JInt 10000002); ("weapon", JStr "Mistsplitter")];
                       JObj [("id", JInt 10000021); ("weapon", JStr "Rust")]])])
           eq_refl ltac:(vm_compute; reflexivity) (Some "en-us") eq_refl).
Defined.

(** Witness of [claim_when_signed_in]: the reward of the day was claimed. *)
Lemma claim_when_signed_in_witness :
  (claim_daily_reward (Ext:=Demo.externals) (Mod:=Sample.models) (Blt:=Sample.builtins)
     (Demo.scripted [Sample.info_answer true 5] Demo.refused_answer)
     (Some "fr-fr") (Demo.world_of Sample.logged_in)).1 = Ok None.
Proof.
  apply (claim_when_signed_in (Ext:=Demo.externals) (Mod:=Sample.models)
           (Blt:=Sample.builtins)
           (Demo.scripted [Sample.info_answer true 5] Demo.refused_answer)
           (Some "fr-fr") (Demo.world_of Sample.logged_in) (JBool true) (JInt 5)
           eq_refl eq_refl).
Defined.

(** Witness of [claim_sequence]: one reward was claimed before, so the
    second reward of the month is returned. *)
Lemma claim_sequence_witness :
  (claim_daily_reward (Ext:=Demo.externals) (Mod:=Sample.models) (Blt:=Sample.builtins)
     (Demo.scripted [Sample.info_answer false 1; Demo.ok_answer; Sample.awards_answer]
        Demo.refused_answer)
     (Some "fr-fr") (Demo.world_of Sample.logged_in)).1
  = Ok (Some (DailyReward, [("name", JStr "Mora"); ("cnt", JInt 1)])).
Proof.
  destruct (claim_sequence (Ext:=Demo.externals) (Mod:=Sample.models)
              (Blt:=Sample.builtins)
              (Demo.scripted [Sample.info_answer false 1; Demo.ok_answer;
                              Sample.awards_answer] Demo.refused_answer)
              (Some "fr-fr") (Demo.world_of Sample.logged_in) (JBool false) (JInt 1)
              eq_refl eq_refl) as [_ Hsigned].
  destruct (Hsigned JNull eq_refl) as (_ & _ & Hreward).
  apply (Hreward _ 1 _ eq_refl eq_refl eq_refl).
Defined.

(** Witness of [transaction_reason_keys]: a file with one reason and one
    other key. *)
Lemma transaction_reason_keys_witness :
  ("_"%char ∉ chars "12")
  ∧ ∃ p, String.prefix "selfinquiry_general_reason_" (p +:+ String "_" "12") = true.
Proof.
  pose (remote := Demo.scripted [Demo.reasons_answer "Daily commission"]
                    Demo.refused_answer).
  pose (d := <["12" := JStr "Daily commission"]> (∅ : gmap string json)).
  assert (fetch_transaction_reasons (Ext:=Demo.externals) remote "en"
            (Demo.world_of Demo.client0)
          = (Ok d, (fetch_transaction_reasons (Ext:=Demo.externals) remote "en"
                      (Demo.world_of Demo.client0)).2)) as Hrun
    by (vm_compute; reflexivity).
  destruct (transaction_reason_keys (Ext:=Demo.externals) remote "en"
              (Demo.world_of Demo.client0) _ d Hrun) as (fields & _ & Hkeys).
  assert (d !! "12" = Some (JStr "Daily commission")) as Hlook
    by (vm_compute; reflexivity).
  destruct (Hkeys "12" (JStr "Daily commission") Hlook) as (Hfree & p & _ & Hprefix).
  split; [exact Hfree|]. by exists p.
Defined.
